(** * The supervisord XML-RPC client (package [xmlrpcclient])

    A shallow embedding of [xmlrpcclient/xmlrpc-client.go]: the request
    pipeline of [post] (transport selection, basic auth, status check), the
    state-changing methods with their local validation, and the positional
    decode of the [supervisor.reloadConfig] reply.

    Go values are modelled as the code has them: [int] and [time.Duration]
    as [Z] (with the wrap-around of [i++] written out), strings as [string],
    slices as lists, [error] by its message, [*http.Response] as an
    [option].  Everything the client does to the outside world is recorded,
    in order, as a list of [io] events; what the outside world answers is
    read from a [World] of oracles. *)

From Stdlib Require Import ZArith String List Bool Lia.
From stdpp Require Import base option gmap strings.
Import ListNotations.

Local Open Scope string_scope.
Local Open Scope Z_scope.
Local Open Scope list_scope.

(** ** Go's [int] *)

Module GoInt.

(** [int] is 64 bits wide on the platforms the daemon is built for. *)
Definition int_bits : Z := 64.
Definition min_int : Z := - 2 ^ (int_bits - 1).
Definition max_int : Z := 2 ^ (int_bits - 1) - 1.

(** Two's-complement wrap-around into [min_int .. max_int]. *)
Definition wrap (z : Z) : Z :=
  (z - min_int) mod 2 ^ int_bits + min_int.

Definition int_add (x y : Z) : Z := wrap (x + y).

(** [i++] *)
Definition incr (i : Z) : Z := int_add i 1.

(** [x / y] on [int] for a positive constant [y]: the quotient truncated
    toward zero, which cannot leave the range of [int]. *)
Definition int_div (x y : Z) : Z := Z.quot x y.

End GoInt.

(** ** Function frames: events, deferred calls, early return, panic *)

Module Frame.

Section WithEvents.

(** The type of observable events. *)
Variable E : Type.

(** What a Go function call comes to. *)
Inductive result (R : Type) : Type :=
| Returned (r : R)
| Panicked.

(** The running frame: the events so far and the stack of deferred
    calls, most recent first. *)
Record frame : Type := { trace : list E; deferred : list E }.

(** How a statement ends: falls through with a value, executes
    [return], or panics. *)
Inductive ctl (R A : Type) : Type :=
| Next (a : A)
| Return (r : R)
| Panic.

Definition Go (R A : Type) : Type := frame -> frame * ctl R A.

Definition ret {R A} (a : A) : Go R A := fun f => (f, Next R A a).

Definition bind {R A B} (m : Go R A) (k : A -> Go R B) : Go R B :=
  fun f =>
    match m f with
    | (f', Next _ _ a) => k a f'
    | (f', Return _ _ r) => (f', Return R B r)
    | (f', Panic _ _) => (f', Panic R B)
    end.

(** An observable action. *)
Definition emit {R} (e : E) : Go R unit :=
  fun f => ({| trace := trace f ++ [e]; deferred := deferred f |}, Next R unit tt).

(** [defer e]: [e] happens when the function returns or panics. *)
Definition defer {R} (e : E) : Go R unit :=
  fun f => ({| trace := trace f; deferred := e :: deferred f |}, Next R unit tt).

(** [return r] *)
Definition return_ {R A} (r : R) : Go R A := fun f => (f, Return R A r).

(** A run-time panic (here: a nil pointer dereference). *)
Definition panic {R A} : Go R A := fun f => (f, Panic R A).

(** A whole function body: its events, followed by the deferred calls
    in last-in-first-out order, and its result. *)
Definition func {R} (body : Go R R) : list E * result R :=
  let '(f, c) := body {| trace := []; deferred := [] |} in
  (trace f ++ deferred f,
   match c with
   | Next _ _ r | Return _ _ r => Returned R r
   | Panic _ _ => Panicked R
   end).

(** Calling a function from a body: its events join the caller's; a
    panic of the callee unwinds the caller. *)
Definition call {R A} (callee : list E * result A) : Go R A :=
  fun f =>
    ({| trace := trace f ++ fst callee; deferred := deferred f |},
     match snd callee with
     | Returned _ a => Next R A a
     | Panicked _ => Panic R A
     end).

End WithEvents.

Arguments Returned {R} r.
Arguments Panicked {R}.
Arguments trace {E} f.
Arguments deferred {E} f.
Arguments ret {E R A} a.
Arguments bind {E R A B} m k.
Arguments emit {E R} e.
Arguments defer {E R} e.
Arguments return_ {E R A} r.
Arguments panic {E R A}.
Arguments func {E R} body.
Arguments call {E R A} callee.

End Frame.

Declare Scope go_scope.
Delimit Scope go_scope with go.
Notation "x <- m ;; k" := (Frame.bind m (fun x => k))
  (at level 100, m at next level, right associativity) : go_scope.
Notation "m ;; k" := (Frame.bind m (fun _ => k))
  (at level 100, right associativity) : go_scope.

(** ** The outside world: values, events and oracles *)

(** A Go [error], identified by its message. *)
Definition error : Type := string.

(** [fmt.Errorf] with a constant format. *)
Definition Errorf (msg : string) : error := msg.

(** The fields of [net/url.URL] that [post] reads. *)
Record URL : Type := { Scheme : string; Path : string }.

(** The structural events a response body parses into. *)
Inductive XmlEvent : Type :=
| ElementEnter (name : string)
| ElementLeaf (name text : string)
| ElementExit.

(** [http.Response]: status line, status code and body. *)
Record Response : Type :=
  { Status : string; StatusCode : Z; Body : list XmlEvent }.

(** [http.Request], as far as [post] builds it.  [Header] holds what [post]
    sets with [Header.Set]; the Authorization header that [SetBasicAuth]
    writes is kept apart, as the credentials themselves in [BasicAuth],
    rather than as their base64 text in [Header]. *)
Record Request : Type :=
  { Method : string;
    Target : string;
    Payload : string;
    Header : gmap string string;
    BasicAuth : option (string * string);
    Context : option Z }.

Definition SetBasicAuth (req : Request) (username password : string) : Request :=
  {| Method := Method req; Target := Target req; Payload := Payload req;
     Header := Header req; BasicAuth := Some (username, password);
     Context := Context req |}.

(** [req.WithContext(ctx)] for a context that expires after [d]. *)
Definition WithContext (req : Request) (d : Z) : Request :=
  {| Method := Method req; Target := Target req; Payload := Payload req;
     Header := Header req; BasicAuth := BasicAuth req; Context := Some d |}.

(** [req.Header.Set(key, value)] *)
Definition Header_Set (req : Request) (key value : string) : Request :=
  {| Method := Method req; Target := Target req; Payload := Payload req;
     Header := <[key := value]> (Header req); BasicAuth := BasicAuth req;
     Context := Context req |}.

(** A connected unix socket. *)
Definition Conn : Type := nat.

(** The argument payloads the methods pass to [post]. *)
Inductive Args : Type :=
| NoArgs                                  (* struct{}{} *)
| ValueArg (Value : string)               (* struct{ Value string } *)
| WaitArg (Wait : bool).                  (* struct{ Wait bool } *)

(** Everything the client does to the outside world, with the answer it
    got where there is one. *)
Inductive io : Type :=
| Stdout (operands : list string)
| ClientDo (req : Request) (answer : Response + error)
| Dial (path : string) (timeout : option Z) (answer : Conn + error)
| SetDeadline (conn : Conn) (after : Z) (answer : option error)
| ReqWrite (req : Request) (conn : Conn) (answer : option error)
| ReadResponse (conn : Conn) (req : Request) (answer : Response + error)
| BodyClose (resp : Response)
| ConnClose (conn : Conn)
| CtxCancel.

Record VersionReply : Type := { VersionReply_Value : string }.
Record StartStopReply : Type := { StartStopReply_Value : bool }.

(** [types.ReloadConfigResult], with the fields [ReloadConfig] fills. *)
Record ReloadConfigResult : Type :=
  { AddedGroup : list string;
    ChangedGroup : list string;
    RemovedGroup : list string }.

Section World.

(** [types.ProcessInfo] is declared in another package; the client only
    passes it through. *)
Variable ProcessInfo : Type.

Record AllProcessInfoReply : Type := { AllProcessInfoReply_Value : list ProcessInfo }.

(** The library calls whose answers depend on the outside world. *)
Record World : Type :=
  { EncodeClientRequest : string -> Args -> string;
    url_Parse : string -> URL + error;
    NewRequest_error : string -> string -> option error;
    DefaultClient_Do : Request -> Response + error;
    net_Dial : string -> option Z -> Conn + error;
    conn_SetDeadline : Conn -> Z -> option error;
    req_Write : Request -> Conn -> option error;
    http_ReadResponse : Conn -> Request -> Response + error;
    DecodeVersionReply : list XmlEvent -> VersionReply * option error;
    DecodeStartStopReply : list XmlEvent -> StartStopReply * option error;
    DecodeAllProcessInfoReply : list XmlEvent -> AllProcessInfoReply * option error }.

End World.

Arguments AllProcessInfoReply_Value {ProcessInfo} _.
Arguments Build_AllProcessInfoReply {ProcessInfo} _.
Arguments EncodeClientRequest {ProcessInfo} _ _ _.
Arguments url_Parse {ProcessInfo} _ _.
Arguments NewRequest_error {ProcessInfo} _ _ _.
Arguments DefaultClient_Do {ProcessInfo} _ _.
Arguments net_Dial {ProcessInfo} _ _ _.
Arguments conn_SetDeadline {ProcessInfo} _ _ _.
Arguments req_Write {ProcessInfo} _ _ _.
Arguments http_ReadResponse {ProcessInfo} _ _ _.
Arguments DecodeVersionReply {ProcessInfo} _ _.
Arguments DecodeStartStopReply {ProcessInfo} _ _.
Arguments DecodeAllProcessInfoReply {ProcessInfo} _ _.

(** [http.NewRequest(method, url, bytes.NewBuffer(body))] *)
Definition http_NewRequest {ProcessInfo} (w : World ProcessInfo)
    (method url body : string) : Request + error :=
  match NewRequest_error w method url with
  | Some err => inr err
  | None =>
      inl {| Method := method; Target := url; Payload := body;
             Header := ∅; BasicAuth := None; Context := None |}
  end.

(** ** The path-keyed streaming processor *)

Module XmlProcessor.

Section Processor.

(** The variables the registered closures capture and update. *)
Variable S : Type.

(** Modelled from the spec: the two callback kinds of the processor
    registration table.  [XmlProcessorManager] and its methods are part of
    package [xmlrpcclient] but their file is not among the sources; only
    the calls made by [ReloadConfig] are.  A leaf callback receives the
    decoded text of a terminal element, a non-leaf callback receives no
    value. *)
Inductive Processor : Type :=
| LeafProcessor (fn : string -> S -> S)
| NonLeafProcessor (fn : S -> S).

(** Modelled from the spec: the registration table, a mapping from the
    slash-delimited structural path to one callback. *)
Definition NewXmlProcessorManager : gmap string Processor := ∅.

(** Modelled from the spec: [registerContainerCallback(path, fn)]. *)
Definition AddNonLeafProcessor (path : string) (fn : S -> S)
    (m : gmap string Processor) : gmap string Processor :=
  <[path := NonLeafProcessor fn]> m.

(** Modelled from the spec: [registerLeafCallback(path, fn)]. *)
Definition AddLeafProcessor (path : string) (fn : string -> S -> S)
    (m : gmap string Processor) : gmap string Processor :=
  <[path := LeafProcessor fn]> m.

(** Modelled from the spec: the structural path, the element names from
    the root down, compared as one exact string. *)
Definition path_string (stack : list string) : string :=
  String.concat "/" stack.

(** Modelled from the spec: the single kind of failure a malformed or
    truncated document surfaces as. *)
Inductive DecodeFailure : Type := decode_failure.

(** Modelled from the spec: a container boundary at [stack] fires the
    non-leaf callback registered for exactly that path. *)
Definition container_pulse (m : gmap string Processor)
    (stack : list string) (s : S) : S :=
  match m !! path_string stack with
  | Some (NonLeafProcessor fn) => fn s
  | _ => s
  end.

(** Modelled from the spec: a terminal element at [stack] fires the leaf
    callback registered for exactly that path, with its text. *)
Definition leaf_value (m : gmap string Processor)
    (stack : list string) (text : string) (s : S) : S :=
  match m !! path_string stack with
  | Some (LeafProcessor fn) => fn text s
  | _ => s
  end.

(** Modelled from the spec: one linear pass over the document with a path
    stack; callbacks fire synchronously in document order, a container
    callback once on entering and once on leaving its element.  An exit
    with nothing open, or an end of input with elements still open, is a
    decode failure; what the callbacks did before it stays done. *)
Fixpoint process (m : gmap string Processor) (stack : list string)
    (doc : list XmlEvent) (s : S) : S * option DecodeFailure :=
  match doc with
  | [] =>
      (s, match stack with [] => None | _ :: _ => Some decode_failure end)
  | ElementEnter name :: rest =>
      let stack' := stack ++ [name] in
      process m stack' rest (container_pulse m stack' s)
  | ElementLeaf name text :: rest =>
      process m stack rest (leaf_value m (stack ++ [name]) text s)
  | ElementExit :: rest =>
      match stack with
      | [] => (s, Some decode_failure)
      | _ :: _ =>
          process m (removelast stack) rest (container_pulse m stack s)
      end
  end.

(** Modelled from the spec: [process(stream)]. *)
Definition ProcessXml (m : gmap string Processor) (doc : list XmlEvent)
    (s : S) : S * option DecodeFailure :=
  process m [] doc s.

End Processor.

Arguments LeafProcessor {S} fn.
Arguments NonLeafProcessor {S} fn.
Arguments NewXmlProcessorManager {S}.
Arguments AddNonLeafProcessor {S} path fn m.
Arguments AddLeafProcessor {S} path fn m.
Arguments container_pulse {S} m stack s.
Arguments leaf_value {S} m stack text s.
Arguments process {S} m stack doc s.
Arguments ProcessXml {S} m doc s.

End XmlProcessor.

(** ** The client *)

Module xmlrpcclient.

Import Frame GoInt XmlProcessor.
Local Open Scope go_scope.

Record XmlRPCClient : Type :=
  { serverurl : string;
    user : string;
    password : string;
    timeout : Z }.

Definition NewXmlRPCClient (serverurl : string) : XmlRPCClient :=
  {| serverurl := serverurl; user := ""; password := ""; timeout := 0 |}.

Definition SetUser (r : XmlRPCClient) (user : string) : XmlRPCClient :=
  {| serverurl := serverurl r; user := user; password := password r;
     timeout := timeout r |}.

Definition SetPassword (r : XmlRPCClient) (password : string) : XmlRPCClient :=
  {| serverurl := serverurl r; user := user r; password := password;
     timeout := timeout r |}.

Definition SetTimeout (r : XmlRPCClient) (timeout : Z) : XmlRPCClient :=
  {| serverurl := serverurl r; user := user r; password := password r;
     timeout := timeout |}.

(** [fmt.Sprintf("%s/RPC2", r.serverurl)] *)
Definition Url (r : XmlRPCClient) : string := serverurl r +:+ "/RPC2".

(** [len(s)] *)
Definition len (s : string) : Z := Z.of_nat (String.length s).

(** The variables the two closures of [ReloadConfig] share. *)
Record ReloadConfigLocals : Type :=
  { reply : ReloadConfigResult; i : Z; has_value : bool }.

(** The closure registered for
    ["methodResponse/params/param/value/array/data"]. *)
Definition ReloadConfig_nonleaf (l : ReloadConfigLocals) : ReloadConfigLocals :=
  if has_value l then
    {| reply := reply l; i := i l; has_value := false |}
  else
    {| reply := reply l; i := incr (i l); has_value := has_value l |}.

(** The closure registered for
    ["methodResponse/params/param/value/array/data/value"]. *)
Definition ReloadConfig_leaf (value : string) (l : ReloadConfigLocals)
    : ReloadConfigLocals :=
  let i' := incr (i l) in
  {| has_value := true;
     i := i';
     reply :=
       match i' with
       | 0 =>
           {| AddedGroup := AddedGroup (reply l) ++ [value];
              ChangedGroup := ChangedGroup (reply l);
              RemovedGroup := RemovedGroup (reply l) |}
       | 1 =>
           {| AddedGroup := AddedGroup (reply l);
              ChangedGroup := ChangedGroup (reply l) ++ [value];
              RemovedGroup := RemovedGroup (reply l) |}
       | 2 =>
           {| AddedGroup := AddedGroup (reply l);
              ChangedGroup := ChangedGroup (reply l);
              RemovedGroup := RemovedGroup (reply l) ++ [value] |}
       | _ => reply l
       end |}.

(** The locals of [ReloadConfig] when the closures are registered. *)
Definition ReloadConfig_init : ReloadConfigLocals :=
  {| reply := {| AddedGroup := []; ChangedGroup := []; RemovedGroup := [] |};
     i := -1;
     has_value := false |}.

Section Methods.

Context {ProcessInfo : Type}.
Variable w : World ProcessInfo.

Definition post (r : XmlRPCClient) (method : string) (data : Args)
    : list io * result (option Response * option error) :=
  func (
    let buf := EncodeClientRequest w method data in
    match url_Parse w (serverurl r) with
    | inr err => return_ (None, Some err)
    | inl url =>
      resp <- (
        if (Scheme url =? "http")%string || (Scheme url =? "https")%string then
          match http_NewRequest w "POST" (Url r) buf with
          | inr err =>
              emit (Stdout ["Fail to create request:"; err]) ;;
              return_ (None, Some err)
          | inl req =>
              let req :=
                if (0 <? len (user r)) && (0 <? len (password r))
                then SetBasicAuth req (user r) (password r) else req in
              req <- (if 0 <? timeout r
                      then defer CtxCancel ;; ret (WithContext req (timeout r))
                      else ret req) ;;
              let req := Header_Set req "Content-Type" "text/xml" in
              let answer := DefaultClient_Do w req in
              emit (ClientDo req answer) ;;
              match answer with
              | inr err =>
                  emit (Stdout ["Fail to send request to supervisord:"; err]) ;;
                  return_ (None, Some err)
              | inl resp => ret (Some resp)
              end
          end
        else if (Scheme url =? "unix")%string then
          let limit := if 0 <? timeout r then Some (timeout r) else None in
          let answer := net_Dial w (Path url) limit in
          emit (Dial (Path url) limit answer) ;;
          match answer with
          | inr err =>
              emit (Stdout ["Fail to connect unix socket path: %s\n"; serverurl r]) ;;
              return_ (None, Some err)
          | inl conn =>
              defer (ConnClose conn) ;;
              (if 0 <? timeout r then
                 let answer := conn_SetDeadline w conn (timeout r) in
                 emit (SetDeadline conn (timeout r) answer) ;;
                 match answer with
                 | Some err => return_ (None, Some err)
                 | None => ret tt
                 end
               else ret tt) ;;
              match http_NewRequest w "POST" "/RPC2" buf with
              | inr err =>
                  emit (Stdout ["Fail to create a http request"]) ;;
                  return_ (None, Some err)
              | inl req =>
                  let req :=
                    if (0 <? len (user r)) && (0 <? len (password r))
                    then SetBasicAuth req (user r) (password r) else req in
                  let req := Header_Set req "Content-Type" "text/xml" in
                  let answer := req_Write w req conn in
                  emit (ReqWrite req conn answer) ;;
                  match answer with
                  | Some err =>
                      emit (Stdout ["Fail to write to unix socket %s\n"; serverurl r]) ;;
                      return_ (None, Some err)
                  | None =>
                      let answer := http_ReadResponse w conn req in
                      emit (ReadResponse conn req answer) ;;
                      match answer with
                      | inr err =>
                          emit (Stdout ["Fail to read response %s\n"; err]) ;;
                          return_ (None, Some err)
                      | inl resp => ret (Some resp)
                      end
                  end
              end
          end
        else ret None) ;;
      match resp with
      | None => panic
      | Some resp =>
          if negb (int_div (StatusCode resp) 100 =? 2) then
            emit (Stdout ["Bad Response:"; Status resp]) ;;
            emit (BodyClose resp) ;;
            return_ (None, Some (Errorf "Response code is NOT 2xx"))
          else return_ (Some resp, None)
      end
    end).

Definition GetVersion (r : XmlRPCClient)
    : list io * result (VersionReply * option error) :=
  func (
    let reply := {| VersionReply_Value := "" |} in
    let ins := NoArgs in
    answer <- call (post r "supervisor.getVersion" ins) ;;
    let '(resp, err) := answer in
    match err with
    | Some err => return_ (reply, Some err)
    | None =>
      match resp with
      | None => panic
      | Some resp =>
          defer (BodyClose resp) ;;
          let '(reply, err) := DecodeVersionReply w (Body resp) in
          return_ (reply, err)
      end
    end).

Definition ChangeProcessState (r : XmlRPCClient) (change processName : string)
    : list io * result (StartStopReply * option error) :=
  func (
    let reply := {| StartStopReply_Value := false |} in
    if negb ((change =? "start")%string || (change =? "stop")%string) then
      return_ (reply, Some (Errorf "Incorrect required state"))
    else
      let ins := ValueArg processName in
      answer <- call (post r ("supervisor." +:+ change +:+ "Process") ins) ;;
      let '(resp, err) := answer in
      match err with
      | Some err => return_ (reply, Some err)
      | None =>
        match resp with
        | None => panic
        | Some resp =>
            defer (BodyClose resp) ;;
            let '(reply, err) := DecodeStartStopReply w (Body resp) in
            return_ (reply, err)
        end
      end).

Definition ChangeAllProcessState (r : XmlRPCClient) (change : string)
    : list io * result (AllProcessInfoReply ProcessInfo * option error) :=
  func (
    let reply := {| AllProcessInfoReply_Value := [] |} in
    if negb ((change =? "start")%string || (change =? "stop")%string) then
      return_ (reply, Some (Errorf "Incorrect required state"))
    else
      let ins := WaitArg true in
      answer <- call (post r ("supervisor." +:+ change +:+ "AllProcesses") ins) ;;
      let '(resp, err) := answer in
      match err with
      | Some err => return_ (reply, Some err)
      | None =>
        match resp with
        | None => panic
        | Some resp =>
            defer (BodyClose resp) ;;
            let '(reply, err) := DecodeAllProcessInfoReply w (Body resp) in
            return_ (reply, err)
        end
      end).

Definition ReloadConfig (r : XmlRPCClient)
    : list io * result (ReloadConfigResult * option error) :=
  func (
    let reply0 :=
      {| AddedGroup := []; ChangedGroup := []; RemovedGroup := [] |} in
    let ins := NoArgs in
    answer <- call (post r "supervisor.reloadConfig" ins) ;;
    let '(resp, err) := answer in
    match err with
    | Some err => return_ (reply0, Some err)
    | None =>
      match resp with
      | None => panic
      | Some resp =>
          defer (BodyClose resp) ;;
          let xmlProcMgr := NewXmlProcessorManager in
          let locals := ReloadConfig_init in
          let xmlProcMgr :=
            AddNonLeafProcessor
              "methodResponse/params/param/value/array/data"
              ReloadConfig_nonleaf xmlProcMgr in
          let xmlProcMgr :=
            AddLeafProcessor
              "methodResponse/params/param/value/array/data/value"
              ReloadConfig_leaf xmlProcMgr in
          let '(locals, _) := ProcessXml xmlProcMgr (Body resp) locals in
          return_ (reply locals, None)
      end
    end).

Definition GetAllProcessInfo (r : XmlRPCClient)
    : list io * result (AllProcessInfoReply ProcessInfo * option error) :=
  func (
    let reply := {| AllProcessInfoReply_Value := [] |} in
    let ins := NoArgs in
    answer <- call (post r "supervisor.getAllProcessInfo" ins) ;;
    let '(resp, err) := answer in
    match err with
    | Some err => return_ (reply, Some err)
    | None =>
      match resp with
      | None => panic
      | Some resp =>
          defer (BodyClose resp) ;;
          let '(reply, err) := DecodeAllProcessInfoReply w (Body resp) in
          return_ (reply, err)
      end
    end).

(** [ShutdownReply] is declared as [type ShutdownReply StartStopReply]: the
    same struct, decoded field by field like it. *)
Definition Shutdown (r : XmlRPCClient)
    : list io * result (StartStopReply * option error) :=
  func (
    let reply := {| StartStopReply_Value := false |} in
    let ins := NoArgs in
    answer <- call (post r "supervisor.shutdown" ins) ;;
    let '(resp, err) := answer in
    match err with
    | Some err => return_ (reply, Some err)
    | None =>
      match resp with
      | None => panic
      | Some resp =>
          defer (BodyClose resp) ;;
          let '(reply, err) := DecodeStartStopReply w (Body resp) in
          return_ (reply, err)
      end
    end).

End Methods.

End xmlrpcclient.

(** ** Callback sequences and reply documents *)

Module Reload.

Import Frame GoInt XmlProcessor xmlrpcclient.

(** One invocation of a closure of [ReloadConfig] by the processor. *)
Inductive Pulse : Type :=
| LeafValue (value : string)
| Boundary.

Definition fire (l : ReloadConfigLocals) (p : Pulse) : ReloadConfigLocals :=
  match p with
  | LeafValue value => ReloadConfig_leaf value l
  | Boundary => ReloadConfig_nonleaf l
  end.

(** The closures invoked in the given order. *)
Definition deliver (ps : list Pulse) (l : ReloadConfigLocals) : ReloadConfigLocals :=
  fold_left fire ps l.

(** The leaf values of a callback sequence, in order. *)
Fixpoint leaf_values (ps : list Pulse) : list string :=
  match ps with
  | [] => []
  | LeafValue value :: rest => value :: leaf_values rest
  | Boundary :: rest => leaf_values rest
  end.

(** How many of the leaf values of [ps], delivered from [l] on, arrive
    while the advanced index is 0, 1 or 2. *)
Fixpoint kept (ps : list Pulse) (l : ReloadConfigLocals) : nat :=
  match ps with
  | [] => 0%nat
  | p :: rest =>
      let here :=
        match p with
        | LeafValue _ =>
            if (0 <=? incr (i l)) && (incr (i l) <=? 2) then 1%nat else 0%nat
        | Boundary => 0%nat
        end in
      (here + kept rest (fire l p))%nat
  end.

(** The number of values in the three accumulators. *)
Definition total (r : ReloadConfigResult) : nat :=
  (length (AddedGroup r) + length (ChangedGroup r) + length (RemovedGroup r))%nat.

Definition container_path : string :=
  "methodResponse/params/param/value/array/data".

Definition leaf_path : string :=
  "methodResponse/params/param/value/array/data/value".

(** The registration table [ReloadConfig] builds. *)
Definition manager : gmap string (Processor ReloadConfigLocals) :=
  AddLeafProcessor leaf_path ReloadConfig_leaf
    (AddNonLeafProcessor container_path ReloadConfig_nonleaf
       NewXmlProcessorManager).

(** The closure invocations [ProcessXml] makes for that table on a
    document, read off the document alone. *)
Fixpoint pulses (stack : list string) (doc : list XmlEvent) : list Pulse :=
  match doc with
  | [] => []
  | ElementEnter name :: rest =>
      (if (path_string (stack ++ [name]) =? container_path)%string
       then [Boundary] else []) ++ pulses (stack ++ [name]) rest
  | ElementLeaf name text :: rest =>
      (if (path_string (stack ++ [name]) =? leaf_path)%string
       then [LeafValue text] else []) ++ pulses stack rest
  | ElementExit :: rest =>
      match stack with
      | [] => []
      | _ :: _ =>
          (if (path_string stack =? container_path)%string
           then [Boundary] else []) ++ pulses (removelast stack) rest
      end
  end.

(** Modelled from the spec: one group of the reply, a container at the
    path registered for the non-leaf closure whose terminal [value]
    elements carry the members of the group. *)
Definition group_events (members : list string) : list XmlEvent :=
  [ElementEnter "param"; ElementEnter "value"; ElementEnter "array";
   ElementEnter "data"]
  ++ map (ElementLeaf "value") members
  ++ [ElementExit; ElementExit; ElementExit; ElementExit].

(** Modelled from the spec: the reply document that encodes the given
    groups in positional order. *)
Definition groups_document (groups : list (list string)) : list XmlEvent :=
  [ElementEnter "methodResponse"; ElementEnter "params"]
  ++ concat (map group_events groups)
  ++ [ElementExit; ElementExit].

(** What the positional decode can have stored when the index is [i]:
    nothing in a slot the index has not reached, one value at most in a
    slot it has. *)
Record slots (l : ReloadConfigLocals) : Prop :=
  { slots_index : -1 <= i l;
    slots_added : (length (AddedGroup (reply l)) <= 1)%nat;
    slots_changed : (length (ChangedGroup (reply l)) <= 1)%nat;
    slots_removed : (length (RemovedGroup (reply l)) <= 1)%nat;
    slots_added_empty : i l < 0 -> AddedGroup (reply l) = [];
    slots_changed_empty : i l < 1 -> ChangedGroup (reply l) = [];
    slots_removed_empty : i l < 2 -> RemovedGroup (reply l) = [] }.

(** [r'] is [r] with [value] appended to exactly one accumulator. *)
Definition appends_to_one (r r' : ReloadConfigResult) (value : string) : Prop :=
  (AddedGroup r' = AddedGroup r ++ [value]
   /\ ChangedGroup r' = ChangedGroup r /\ RemovedGroup r' = RemovedGroup r)
  \/ (AddedGroup r' = AddedGroup r
      /\ ChangedGroup r' = ChangedGroup r ++ [value]
      /\ RemovedGroup r' = RemovedGroup r)
  \/ (AddedGroup r' = AddedGroup r
      /\ ChangedGroup r' = ChangedGroup r
      /\ RemovedGroup r' = RemovedGroup r ++ [value]).

(** [needle] occurs in [haystack]. *)
Fixpoint contains (haystack needle : string) : bool :=
  String.prefix needle haystack
  || match haystack with
     | EmptyString => false
     | String _ rest => contains rest needle
     end.

(** A world in which the address parses to [u], every connection succeeds,
    the server answers [resp], and decoding succeeds. *)
Definition answering (u : URL) (resp : Response) : World unit :=
  {| EncodeClientRequest := fun method _ => method;
     url_Parse := fun _ => inl u;
     NewRequest_error := fun _ _ => None;
     DefaultClient_Do := fun _ => inl resp;
     net_Dial := fun _ _ => inl 3%nat;
     conn_SetDeadline := fun _ _ => None;
     req_Write := fun _ _ => None;
     http_ReadResponse := fun _ _ => inl resp;
     DecodeVersionReply := fun _ => ({| VersionReply_Value := "3.0" |}, None);
     DecodeStartStopReply := fun _ => ({| StartStopReply_Value := true |}, None);
     DecodeAllProcessInfoReply := fun _ => ({| AllProcessInfoReply_Value := [] |}, None) |}.

Definition http_url : URL := {| Scheme := "http"; Path := "" |}.
Definition unix_url : URL := {| Scheme := "unix"; Path := "/tmp/supervisord.sock" |}.
Definition ftp_url : URL := {| Scheme := "ftp"; Path := "/" |}.

Definition ok_response (body : list XmlEvent) : Response :=
  {| Status := "200 OK"; StatusCode := 200; Body := body |}.

Definition not_found : Response :=
  {| Status := "404 Not Found"; StatusCode := 404; Body := [] |}.

(** A client of a daemon on the local host. *)
Definition local_client : XmlRPCClient :=
  NewXmlRPCClient "http://localhost:9001".

(** A client of a daemon behind a unix socket, with credentials. *)
Definition admin : XmlRPCClient :=
  SetPassword
    (SetUser (NewXmlRPCClient "unix:///tmp/supervisord.sock") "admin")
    "secret".

(** The request [admin] writes onto the socket for [supervisor.getVersion]
    in the world [answering]. *)
Definition admin_request : Request :=
  Header_Set
    (SetBasicAuth
       {| Method := "POST"; Target := "/RPC2";
          Payload := "supervisor.getVersion";
          Header := ∅; BasicAuth := None; Context := None |}
       "admin" "secret")
    "Content-Type" "text/xml".

(** The request [local_client] hands to the HTTP client. *)
Definition anonymous_request : Request :=
  Header_Set
    {| Method := "POST"; Target := "http://localhost:9001/RPC2";
       Payload := "supervisor.getVersion";
       Header := ∅; BasicAuth := None; Context := None |}
    "Content-Type" "text/xml".

(** A reply with four groups of one value each. *)
Definition four_groups : list XmlEvent :=
  groups_document [["a"]; ["b"]; ["c"]; ["d"]].

(** The reply of the concrete reload scenario: groups a b, none, c. *)
Definition scenario : list XmlEvent :=
  groups_document [["a"; "b"]; []; ["c"]].

(** The same reply cut off after its first leaf value. *)
Definition truncated : list XmlEvent :=
  [ElementEnter "methodResponse"; ElementEnter "params"; ElementEnter "param";
   ElementEnter "value"; ElementEnter "array"; ElementEnter "data";
   ElementLeaf "value" "a"].

End Reload.

(** ** Reading a trace *)

Module Observe.

(** The response an event hands to [post], if any. *)
Definition response_of (e : io) : option Response :=
  match e with
  | ClientDo _ (inl resp) => Some resp
  | ReadResponse _ _ (inl resp) => Some resp
  | _ => None
  end.

(** [post] obtained [resp] from the transport somewhere in [tr]. *)
Definition obtains (tr : list io) (resp : Response) : Prop :=
  exists e, In e tr /\ response_of e = Some resp.

(** The requests handed to a transport in [tr]: to the HTTP client, or
    written onto the socket. *)
Fixpoint requests_sent (tr : list io) : list Request :=
  match tr with
  | [] => []
  | ClientDo req _ :: rest => req :: requests_sent rest
  | ReqWrite req _ _ :: rest => req :: requests_sent rest
  | _ :: rest => requests_sent rest
  end.

(** The status class the validator accepts. *)
Definition success_class (code : Z) : Prop := 200 <= code <= 299.

End Observe.

(** ** Further readings of traces and callback sequences *)

Module Readings.

Import Frame GoInt XmlProcessor xmlrpcclient Reload Observe.

(** The responses whose body is closed in [tr], in order. *)
Fixpoint bodies_closed (tr : list io) : list Response :=
  match tr with
  | [] => []
  | BodyClose resp :: rest => resp :: bodies_closed rest
  | _ :: rest => bodies_closed rest
  end.

(** The errors the outside world answered with in [tr]. *)
Fixpoint errors_answered (tr : list io) : list error :=
  match tr with
  | [] => []
  | ClientDo _ (inr err) :: rest => err :: errors_answered rest
  | Dial _ _ (inr err) :: rest => err :: errors_answered rest
  | SetDeadline _ _ (Some err) :: rest => err :: errors_answered rest
  | ReqWrite _ _ (Some err) :: rest => err :: errors_answered rest
  | ReadResponse _ _ (inr err) :: rest => err :: errors_answered rest
  | _ :: rest => errors_answered rest
  end.

(** The request an event hands to a transport, if any. *)
Definition request_of (e : io) : option Request :=
  match e with
  | ClientDo req _ => Some req
  | ReqWrite req _ _ => Some req
  | _ => None
  end.

(** The request target of each transport. *)
Definition target_of (r : XmlRPCClient) (e : io) : option string :=
  match e with
  | ClientDo _ _ => Some (Url r)
  | ReqWrite _ _ _ => Some "/RPC2"
  | _ => None
  end.

(** [r.timeout > 0] as the optional limit it stands for. *)
Definition limit_of (r : XmlRPCClient) : option Z :=
  if 0 <? timeout r then Some (timeout r) else None.

(** The three accumulators of a reply, one after the other. *)
Definition flat (r : ReloadConfigResult) : list string :=
  AddedGroup r ++ ChangedGroup r ++ RemovedGroup r.

Definition is_leaf (p : Pulse) : bool :=
  match p with
  | LeafValue _ => true
  | Boundary => false
  end.

(** How often a callback sequence asks for [i++], given whether a leaf
    value came immediately before it: once for every leaf value, and once
    for every boundary that does not directly follow a leaf value. *)
Fixpoint advances (after_leaf : bool) (ps : list Pulse) : nat :=
  match ps with
  | [] => 0%nat
  | LeafValue _ :: rest => S (advances true rest)
  | Boundary :: rest =>
      ((if after_leaf then 0 else 1) + advances false rest)%nat
  end.

(** The callback order of a processor that delivers the members of each
    group and then signals the end of the group once. *)
Definition end_pulses (groups : list (list string)) : list Pulse :=
  concat (map (fun members => map LeafValue members ++ [Boundary]) groups).

(** The group a slot of the reply stands for when the first of [groups]
    is group number [n]: the group number [k], if it is among them. *)
Definition pick (k n : nat) (groups : list (list string)) : list string :=
  if (n <=? k)%nat then nth (k - n) groups [] else [].

End Readings.

(** * Properties *)

(** ** Arithmetic of [int] *)

Module GoIntFacts.

Import GoInt.

Lemma wrap_in_range (z : Z) : min_int <= z <= max_int -> wrap z = z.
Proof.
  unfold wrap, min_int, max_int, int_bits. intros H.
  rewrite Z.mod_small; lia.
Qed.

Lemma incr_no_wrap (x : Z) : min_int <= x < max_int -> incr x = x + 1.
Proof.
  intros H. unfold incr, int_add. apply wrap_in_range. lia.
Qed.

Lemma incr_at_max : incr max_int = min_int.
Proof. reflexivity. Qed.

Lemma min_int_neg : min_int < -1.
Proof. reflexivity. Qed.

Lemma max_int_val : max_int = 2 ^ 63 - 1.
Proof. reflexivity. Qed.

(** The status check [code / 100 != 2] rejects exactly the codes outside
    200..299. *)
Lemma status_class (code : Z) :
  int_div code 100 = 2 <-> 200 <= code <= 299.
Proof.
  unfold int_div. split.
  - intros H.
    destruct (Z_lt_le_dec code 0) as [Hneg | Hpos].
    + pose proof (Z.quot_opp_l (- code) 100 ltac:(lia)) as Hq.
      rewrite Z.opp_involutive in Hq.
      assert (0 <= (- code) ÷ 100) by (apply Z.quot_pos; lia).
      lia.
    + rewrite Z.quot_div_nonneg in H by lia.
      pose proof (Z.div_mod code 100 ltac:(lia)).
      pose proof (Z.mod_pos_bound code 100 ltac:(lia)).
      lia.
  - intros H. rewrite Z.quot_div_nonneg by lia.
    symmetry. apply (Z.div_unique code 100 2 (code - 200)); lia.
Qed.

End GoIntFacts.

(** ** The positional decode of the reload reply *)

Module ReloadFacts.

Import GoInt GoIntFacts XmlProcessor xmlrpcclient Reload.

Lemma deliver_app (ps qs : list Pulse) (l : ReloadConfigLocals) :
  deliver (ps ++ qs) l = deliver qs (deliver ps l).
Proof. apply fold_left_app. Qed.

Lemma deliver_cons (p : Pulse) (ps : list Pulse) (l : ReloadConfigLocals) :
  deliver (p :: ps) l = deliver ps (fire l p).
Proof. reflexivity. Qed.

(** Neither closure moves the index by more than one step, as long as
    [i++] does not wrap. *)
Lemma fire_index (l : ReloadConfigLocals) (p : Pulse) :
  min_int <= i l < max_int -> i l <= i (fire l p) <= i l + 1.
Proof.
  intros H. destruct p as [value |]; cbn.
  - rewrite incr_no_wrap by lia. lia.
  - unfold ReloadConfig_nonleaf. destruct (has_value l); cbn.
    + lia.
    + rewrite incr_no_wrap by lia. lia.
Qed.

Lemma slots_init : slots ReloadConfig_init.
Proof. split; cbn; auto; lia. Qed.

Lemma slots_fire (l : ReloadConfigLocals) (p : Pulse) :
  i l < max_int -> slots l -> slots (fire l p).
Proof.
  intros Hmax [Hi Ha Hc Hr Hae Hce Hre].
  pose proof min_int_neg as Hmin.
  assert (Hfield : forall (xs : list string) (v : string),
             xs = [] -> (length (xs ++ [v]) <= 1)%nat)
    by (intros xs v ->; cbn; lia).
  assert (Hstep : incr (i l) = i l + 1) by (apply incr_no_wrap; lia).
  destruct p as [value |]; cbn.
  - unfold ReloadConfig_leaf. rewrite Hstep.
    destruct (i l + 1) as [| [q | q |] |] eqn:Ek; try destruct q;
      split; cbn; intros; auto; try lia;
      solve [ apply Hae; lia | apply Hce; lia | apply Hre; lia
            | apply Hfield, Hae; lia | apply Hfield, Hce; lia
            | apply Hfield, Hre; lia ].
  - unfold ReloadConfig_nonleaf. destruct (has_value l); cbn.
    + split; cbn; auto.
    + rewrite Hstep.
      split; cbn; intros; auto; try lia;
        solve [apply Hae; lia | apply Hce; lia | apply Hre; lia].
Qed.

Lemma deliver_index (ps : list Pulse) :
  forall l : ReloadConfigLocals,
    min_int <= i l ->
    i l + Z.of_nat (length ps) <= max_int ->
    i l <= i (deliver ps l) <= i l + Z.of_nat (length ps).
Proof.
  induction ps as [| p ps IH]; intros l Hmin Hlen.
  - cbn. lia.
  - rewrite deliver_cons. cbn [length] in *.
    pose proof (fire_index l p ltac:(lia)) as Hf.
    specialize (IH (fire l p) ltac:(lia) ltac:(lia)). lia.
Qed.

Lemma deliver_slots (ps : list Pulse) :
  forall l : ReloadConfigLocals,
    slots l ->
    i l + Z.of_nat (length ps) <= max_int ->
    slots (deliver ps l).
Proof.
  induction ps as [| p ps IH]; intros l Hs Hlen.
  - exact Hs.
  - rewrite deliver_cons.
    assert (Hi : -1 <= i l) by (destruct Hs; assumption).
    pose proof min_int_neg.
    cbn [length] in Hlen.
    apply IH.
    + apply slots_fire; [lia | exact Hs].
    + pose proof (fire_index l p ltac:(lia)). lia.
Qed.


Lemma fire_total (l : ReloadConfigLocals) (p : Pulse) :
  total (reply (fire l p)) = (total (reply l) + kept [p] l)%nat.
Proof.
  destruct p as [value |]; cbn.
  - unfold ReloadConfig_leaf, total; cbn.
    destruct (incr (i l)) as [| [q | q |] |]; try destruct q; cbn;
      rewrite ?length_app; cbn; lia.
  - unfold ReloadConfig_nonleaf. destruct (has_value l); cbn; lia.
Qed.

Lemma deliver_total (ps : list Pulse) :
  forall l : ReloadConfigLocals,
    total (reply (deliver ps l)) = (total (reply l) + kept ps l)%nat.
Proof.
  induction ps as [| p ps IH]; intros l.
  - cbn. lia.
  - rewrite deliver_cons, IH, fire_total. cbn [kept]. lia.
Qed.

Lemma kept_le_leaves (ps : list Pulse) :
  forall l : ReloadConfigLocals,
    (kept ps l <= length (leaf_values ps))%nat.
Proof.
  induction ps as [| p ps IH]; intros l; [cbn; lia |].
  specialize (IH (fire l p)). cbn [kept leaf_values].
  destruct p as [value |]; cbn [length].
  - destruct ((0 <=? incr (i l)) && (incr (i l) <=? 2)); lia.
  - lia.
Qed.

Lemma leaf_appends_to_one (l : ReloadConfigLocals) (value : string) :
  reply (ReloadConfig_leaf value l) = reply l
  \/ appends_to_one (reply l) (reply (ReloadConfig_leaf value l)) value.
Proof.
  unfold ReloadConfig_leaf, appends_to_one; cbn.
  destruct (incr (i l)) as [| [q | q |] |]; try destruct q; cbn; tauto.
Qed.

Lemma nonleaf_keeps_reply (l : ReloadConfigLocals) :
  reply (ReloadConfig_nonleaf l) = reply l.
Proof. unfold ReloadConfig_nonleaf. destruct (has_value l); reflexivity. Qed.

(** *** The registration table and the processor *)

Lemma paths_differ : container_path <> leaf_path.
Proof. apply String.eqb_neq. reflexivity. Qed.

Lemma manager_container :
  manager !! container_path = Some (NonLeafProcessor ReloadConfig_nonleaf).
Proof.
  unfold manager, AddLeafProcessor, AddNonLeafProcessor.
  rewrite lookup_insert_ne by (intros H; symmetry in H; exact (paths_differ H)).
  apply lookup_insert_eq.
Qed.

Lemma manager_leaf :
  manager !! leaf_path = Some (LeafProcessor ReloadConfig_leaf).
Proof. unfold manager, AddLeafProcessor. apply lookup_insert_eq. Qed.

Lemma manager_other (path : string) :
  path <> container_path -> path <> leaf_path -> manager !! path = None.
Proof.
  intros Hc Hl. unfold manager, AddLeafProcessor, AddNonLeafProcessor,
    NewXmlProcessorManager.
  rewrite !lookup_insert_ne by congruence. apply lookup_empty.
Qed.

Lemma container_pulse_fires (stack : list string) (l : ReloadConfigLocals) :
  container_pulse manager stack l =
  deliver (if (path_string stack =? container_path)%string
           then [Boundary] else []) l.
Proof.
  unfold container_pulse.
  destruct (String.eqb_spec (path_string stack) container_path) as [E | E].
  - rewrite E, manager_container. reflexivity.
  - destruct (String.eqb_spec (path_string stack) leaf_path) as [E' | E'].
    + rewrite E', manager_leaf. reflexivity.
    + rewrite manager_other by assumption. reflexivity.
Qed.

Lemma leaf_value_fires (stack : list string) (text : string)
    (l : ReloadConfigLocals) :
  leaf_value manager stack text l =
  deliver (if (path_string stack =? leaf_path)%string
           then [LeafValue text] else []) l.
Proof.
  unfold leaf_value.
  destruct (String.eqb_spec (path_string stack) leaf_path) as [E | E].
  - rewrite E, manager_leaf. reflexivity.
  - destruct (String.eqb_spec (path_string stack) container_path) as [E' | E'].
    + rewrite E', manager_container. reflexivity.
    + rewrite manager_other by assumption. reflexivity.
Qed.

(** The processor does to the locals exactly what delivering [pulses]
    does, whether or not the document is well formed. *)
Lemma process_deliver (doc : list XmlEvent) :
  forall (stack : list string) (l : ReloadConfigLocals),
    fst (process manager stack doc l) = deliver (pulses stack doc) l.
Proof.
  induction doc as [| e doc IH]; intros stack l; [reflexivity |].
  destruct e as [name | name text |]; cbn [process pulses].
  - rewrite IH, container_pulse_fires, deliver_app. reflexivity.
  - rewrite IH, leaf_value_fires, deliver_app. reflexivity.
  - destruct stack as [| top stack]; [reflexivity |].
    rewrite IH, container_pulse_fires, deliver_app. reflexivity.
Qed.

Lemma pulses_length (doc : list XmlEvent) :
  forall stack : list string,
    (length (pulses stack doc) <= length doc)%nat.
Proof.
  induction doc as [| e doc IH]; intros stack; [cbn; lia |].
  destruct e as [name | name text |]; cbn [pulses length].
  - rewrite length_app. specialize (IH (stack ++ [name])).
    destruct (_ =? _)%string; cbn [length]; lia.
  - rewrite length_app. specialize (IH stack).
    destruct (_ =? _)%string; cbn [length]; lia.
  - destruct stack as [| top stack]; [cbn; lia |].
    rewrite length_app. specialize (IH (removelast (top :: stack))).
    destruct (_ =? _)%string; cbn [length]; lia.
Qed.

End ReloadFacts.

(** ** The request pipeline *)

Module PostFacts.

Import Frame GoInt GoIntFacts XmlProcessor xmlrpcclient Reload Observe.

(** Run a function body as far as its constructors allow. *)
Ltac run :=
  cbv beta iota zeta delta
    [func bind emit defer ret return_ panic call trace deferred fst snd
     http_NewRequest] in *.

(** Split on the next answer of the world or the next test of the code. *)
Ltac next_case :=
  match goal with
  | |- context [match ?x with _ => _ end] =>
      lazymatch x with
      | context [match _ with _ => _ end] => fail
      | _ => destruct x eqn:?
      end
  end.

(** Every path through [post], each with its explicit trace and result. *)
Ltac paths := unfold post in *; repeat (run; next_case); run; cbn [app] in *.

(** Find the event of an explicit trace that handed over the response. *)
Ltac obtained :=
  match goal with
  | H : obtains _ _ |- _ =>
      let e := fresh "e" in
      let Hin := fresh "Hin" in
      let Hres := fresh "Hres" in
      destruct H as (e & Hin & Hres);
      cbn [In] in Hin;
      repeat (destruct Hin as [<- | Hin];
              [cbn [response_of] in Hres; try discriminate Hres |]);
      try contradiction;
      try (injection Hres as <-)
  end.

Lemma obtains_here (e : io) (tr : list io) (resp : Response) :
  response_of e = Some resp -> obtains (e :: tr) resp.
Proof. intros H. exists e. split; [left; reflexivity | exact H]. Qed.

Lemma obtains_later (e : io) (tr : list io) (resp : Response) :
  obtains tr resp -> obtains (e :: tr) resp.
Proof. intros (e' & Hin & H). exists e'. split; [right; exact Hin | exact H]. Qed.

Lemma rejected (code : Z) :
  ~ success_class code -> negb (int_div code 100 =? 2) = true.
Proof.
  intros H. apply negb_true_iff, Z.eqb_neq. intros E.
  apply H, status_class, E.
Qed.

Lemma accepted (code : Z) :
  negb (int_div code 100 =? 2) = false -> success_class code.
Proof.
  intros H. apply negb_false_iff, Z.eqb_eq in H. apply status_class, H.
Qed.

Section WithWorld.

Context {ProcessInfo : Type}.
Variable w : World ProcessInfo.

(** What [post] does with a response it obtained whose status is outside
    200..299: it prints the status, closes the body, runs what was deferred,
    and returns the fixed failure. *)
Lemma post_rejects (r : XmlRPCClient) (method : string) (data : Args)
    (resp : Response) :
  obtains (fst (post w r method data)) resp ->
  ~ success_class (StatusCode resp) ->
  snd (post w r method data)
  = Returned (None, Some (Errorf "Response code is NOT 2xx"))
  /\ exists before after,
      fst (post w r method data)
      = before ++ Stdout ["Bad Response:"; Status resp] :: BodyClose resp :: after
      /\ obtains before resp.
Proof.
  intros Ho Hc.
  paths; obtained;
    try (match goal with
         | H : negb _ = false |- _ => apply accepted in H; contradiction
         end);
    (split; [reflexivity |]);
    match goal with
    | |- exists before after,
          ?a :: Stdout ?s :: BodyClose ?x :: ?rest = _ /\ _ =>
        exists [a], rest
    | |- exists before after,
          ?a :: ?b :: ?c :: Stdout ?s :: BodyClose ?x :: ?rest = _ /\ _ =>
        exists [a; b; c], rest
    | |- exists before after,
          ?a :: ?b :: ?c :: ?d :: Stdout ?s :: BodyClose ?x :: ?rest = _ /\ _ =>
        exists [a; b; c; d], rest
    end;
    (split; [reflexivity |]);
    repeat first [apply obtains_here; reflexivity | apply obtains_later].
Qed.

Lemma post_unsupported_scheme (r : XmlRPCClient) (method : string)
    (data : Args) (url : URL) :
  url_Parse w (serverurl r) = inl url ->
  Scheme url <> "http" -> Scheme url <> "https" -> Scheme url <> "unix" ->
  post w r method data = ([], Panicked).
Proof.
  intros Hp H1 H2 H3.
  apply String.eqb_neq in H1, H2, H3.
  unfold post. rewrite Hp, H1, H2, H3. reflexivity.
Qed.


(** After a successful [post], [ReloadConfig] closes the body on return and
    reports whatever the closures accumulated, with a nil error, whatever
    the processor made of the document. *)
Lemma ReloadConfig_after_post (r : XmlRPCClient) (tr : list io)
    (resp : Response) :
  post w r "supervisor.reloadConfig" NoArgs = (tr, Returned (Some resp, None)) ->
  ReloadConfig w r
  = (tr ++ [BodyClose resp],
     Returned (reply (deliver (pulses [] (Body resp)) ReloadConfig_init), None)).
Proof.
  intros H. unfold ReloadConfig. rewrite H. run.
  change (AddLeafProcessor _ _ _) with manager.
  pose proof (ReloadFacts.process_deliver (Body resp) [] ReloadConfig_init) as Hd.
  unfold ProcessXml.
  destruct (process manager [] (Body resp) ReloadConfig_init) as [l failure].
  cbn [fst] in Hd. subst l. reflexivity.
Qed.

(** The sibling methods hand the decoder's error to their caller. *)
Lemma GetVersion_surfaces_decode_error (r : XmlRPCClient) (tr : list io)
    (resp : Response) (reply : VersionReply) (err : error) :
  post w r "supervisor.getVersion" NoArgs = (tr, Returned (Some resp, None)) ->
  DecodeVersionReply w (Body resp) = (reply, Some err) ->
  GetVersion w r = (tr ++ [BodyClose resp], Returned (reply, Some err)).
Proof.
  intros H D. unfold GetVersion. rewrite H. run. rewrite D. reflexivity.
Qed.

End WithWorld.

(** The test [len(r.user) > 0 && len(r.password) > 0]. *)
Lemma both_nonempty (u p : string) :
  (0 <? len u) && (0 <? len p) = true <-> u <> "" /\ p <> "".
Proof.
  unfold len. rewrite andb_true_iff, !Z.ltb_lt.
  destruct u, p; cbn [String.length]; split; intros [H1 H2];
    try lia; try (split; congruence); try (split; lia); try congruence.
Qed.

End PostFacts.

(** ** The claims *)

Module Claims.

Import Frame GoInt GoIntFacts XmlProcessor xmlrpcclient Reload Observe Readings.
Import ReloadFacts PostFacts.

(** C1.  The reply that encodes the groups a b, none, c is not decoded into
    added = a b, changed = none, removed = c.  With the processor of the
    specification, [ReloadConfig] returns added = none, changed = a,
    removed = b and loses c; and in whatever order a processor invokes the two
    closures (fewer than 2^63 times, so that the index cannot wrap), no
    accumulator ever holds more than one value, because the leaf closure
    advances the index at every value. *)
Theorem ReloadConfig_splits_a_group :
  snd (ReloadConfig (answering http_url (ok_response scenario)) local_client)
  = Returned
      ({| AddedGroup := []; ChangedGroup := ["a"]; RemovedGroup := ["b"] |},
       None)
  /\ forall ps : list Pulse,
      Z.of_nat (length ps) < 2 ^ 63 ->
      let r := reply (deliver ps ReloadConfig_init) in
      (length (AddedGroup r) <= 1)%nat
      /\ (length (ChangedGroup r) <= 1)%nat
      /\ (length (RemovedGroup r) <= 1)%nat.
Proof.
  split; [vm_compute; reflexivity |].
  intros ps Hlen r.
  assert (Hs : slots (deliver ps ReloadConfig_init)).
  { apply deliver_slots; [exact slots_init |].
    rewrite max_int_val. cbn [i ReloadConfig_init]. lia. }
  destruct Hs as [_ Ha Hc Hr _ _ _]. auto.
Qed.

Lemma ReloadConfig_splits_a_group_witness :
  (length (AddedGroup (reply (deliver (pulses [] scenario) ReloadConfig_init)))
   <= 1)%nat.
Proof.
  apply (proj2 ReloadConfig_splits_a_group (pulses [] scenario)).
  vm_compute. reflexivity.
Defined.

(** C2.  After any sequence of callbacks, the leaf closure sets [has_value]
    and performs [i++]; the non-leaf closure clears [has_value] and leaves
    [i] alone when the flag is set, and performs [i++] when it is not.  Below
    2^63 callbacks [i++] is exactly [i + 1]. *)
Theorem closures_set_flag_and_advance_index (ps : list Pulse) (value : string) :
  let l := deliver ps ReloadConfig_init in
  (has_value (ReloadConfig_leaf value l) = true
   /\ i (ReloadConfig_leaf value l) = incr (i l))
  /\ (if has_value l
      then has_value (ReloadConfig_nonleaf l) = false
           /\ i (ReloadConfig_nonleaf l) = i l
      else has_value (ReloadConfig_nonleaf l) = false
           /\ i (ReloadConfig_nonleaf l) = incr (i l))
  /\ (Z.of_nat (length ps) < 2 ^ 63 -> incr (i l) = i l + 1).
Proof.
  intros l. split; [split; reflexivity |]. split.
  - unfold ReloadConfig_nonleaf. destruct (has_value l) eqn:E; cbn; auto.
  - intros Hlen. apply incr_no_wrap.
    pose proof (deliver_index ps ReloadConfig_init) as Hi.
    cbn [i ReloadConfig_init] in Hi. rewrite max_int_val in *.
    pose proof min_int_neg. fold l in Hi. lia.
Qed.

Lemma closures_set_flag_and_advance_index_witness :
  incr (i (deliver (pulses [] scenario) ReloadConfig_init))
  = i (deliver (pulses [] scenario) ReloadConfig_init) + 1.
Proof.
  apply (closures_set_flag_and_advance_index (pulses [] scenario) "").
  vm_compute. reflexivity.
Defined.

(** C3.  The accumulators do not hold every leaf value of a well-formed
    reply of three groups.  The reply with the groups a b, none, c has three
    leaf values and [ReloadConfig] returns two of them; the same two are all
    that is stored when the closures are invoked with each group's members
    followed by one end signal.  And in whatever order a processor invokes
    the closures (fewer than 2^63 times), at most three values are stored in
    all, one per accumulator, so every reply with more leaf values than that
    loses some. *)
Theorem ReloadConfig_loses_leaf_values :
  (snd (ProcessXml manager scenario ReloadConfig_init) = None
   /\ leaf_values (pulses [] scenario) = ["a"; "b"; "c"]
   /\ exists reply,
       snd (ReloadConfig (answering http_url (ok_response scenario)) local_client)
       = Returned (reply, None)
       /\ total reply = 2%nat)
  /\ (leaf_values (end_pulses [["a"; "b"]; []; ["c"]]) = ["a"; "b"; "c"]
      /\ total (reply (deliver (end_pulses [["a"; "b"]; []; ["c"]])
                         ReloadConfig_init)) = 2%nat)
  /\ forall ps : list Pulse,
      Z.of_nat (length ps) < 2 ^ 63 ->
      (total (reply (deliver ps ReloadConfig_init)) <= 3)%nat.
Proof.
  split; [| split].
  - split; [vm_compute; reflexivity |].
    split; [vm_compute; reflexivity |].
    eexists. split; vm_compute; reflexivity.
  - split; vm_compute; reflexivity.
  - intros ps Hlen.
    assert (Hs : slots (deliver ps ReloadConfig_init)).
    { apply deliver_slots; [exact slots_init |].
      rewrite max_int_val. cbn [i ReloadConfig_init]. lia. }
    destruct Hs as [_ Ha Hc Hr _ _ _]. unfold total. lia.
Qed.

Lemma ReloadConfig_loses_leaf_values_witness :
  (total (reply (deliver
                   [LeafValue "a"; LeafValue "b"; Boundary;
                    LeafValue "c"; Boundary; LeafValue "d"; Boundary]
                   ReloadConfig_init)) <= 3)%nat.
Proof.
  apply (proj2 (proj2 ReloadConfig_loses_leaf_values)
           [LeafValue "a"; LeafValue "b"; Boundary;
            LeafValue "c"; Boundary; LeafValue "d"; Boundary]).
  vm_compute. reflexivity.
Defined.

(** C4.  The leaf closure routes its value by the index it has just
    advanced: 0 appends to added, 1 to changed, 2 to removed, and any other
    index leaves the reply as it was.  Nothing is reported for a dropped
    value: once [post] has handed over a response, [ReloadConfig] returns
    what was accumulated with a nil error. *)
Theorem index_routes_leaf_value {ProcessInfo : Type} (w : World ProcessInfo)
    (r : XmlRPCClient) (resp : Response) (l : ReloadConfigLocals)
    (value : string) :
  snd (post w r "supervisor.reloadConfig" NoArgs) = Returned (Some resp, None) ->
  match incr (i l) with
  | 0 =>
      reply (ReloadConfig_leaf value l)
      = {| AddedGroup := AddedGroup (reply l) ++ [value];
           ChangedGroup := ChangedGroup (reply l);
           RemovedGroup := RemovedGroup (reply l) |}
  | 1 =>
      reply (ReloadConfig_leaf value l)
      = {| AddedGroup := AddedGroup (reply l);
           ChangedGroup := ChangedGroup (reply l) ++ [value];
           RemovedGroup := RemovedGroup (reply l) |}
  | 2 =>
      reply (ReloadConfig_leaf value l)
      = {| AddedGroup := AddedGroup (reply l);
           ChangedGroup := ChangedGroup (reply l);
           RemovedGroup := RemovedGroup (reply l) ++ [value] |}
  | _ => reply (ReloadConfig_leaf value l) = reply l
  end
  /\ snd (ReloadConfig w r)
     = Returned (reply (deliver (pulses [] (Body resp)) ReloadConfig_init), None).
Proof.
  intros Hpost. split.
  - unfold ReloadConfig_leaf. cbn [reply].
    destruct (incr (i l)) as [| [q | q |] |]; try destruct q; reflexivity.
  - destruct (post w r "supervisor.reloadConfig" NoArgs) as [tr res] eqn:E.
    cbn [snd] in Hpost. subst res.
    rewrite (ReloadConfig_after_post w r tr resp E). reflexivity.
Qed.

Lemma index_routes_leaf_value_witness :
  reply (ReloadConfig_leaf "d"
           {| reply := {| AddedGroup := ["a"]; ChangedGroup := ["b"];
                          RemovedGroup := ["c"] |};
              i := 2; has_value := false |})
  = {| AddedGroup := ["a"]; ChangedGroup := ["b"]; RemovedGroup := ["c"] |}
  /\ snd (ReloadConfig (answering http_url (ok_response four_groups)) local_client)
     = Returned
         (reply (deliver (pulses [] four_groups) ReloadConfig_init), None).
Proof.
  apply (index_routes_leaf_value
           (answering http_url (ok_response four_groups)) local_client
           (ok_response four_groups)
           {| reply := {| AddedGroup := ["a"]; ChangedGroup := ["b"];
                          RemovedGroup := ["c"] |};
              i := 2; has_value := false |} "d").
  vm_compute. reflexivity.
Defined.

(** C5.  With a verb other than start and stop, [ChangeProcessState] and
    [ChangeAllProcessState] return the validation failure and do nothing at
    all to the outside world; with start or stop they call [post] with the
    method built from the verb. *)
Theorem state_change_validated_locally {ProcessInfo : Type}
    (w : World ProcessInfo) (r : XmlRPCClient) (change processName : string) :
  (change <> "start" /\ change <> "stop" ->
   ChangeProcessState w r change processName
   = ([], Returned ({| StartStopReply_Value := false |},
                    Some (Errorf "Incorrect required state")))
   /\ ChangeAllProcessState w r change
      = ([], Returned ({| AllProcessInfoReply_Value := [] |},
                       Some (Errorf "Incorrect required state"))))
  /\ (change = "start" \/ change = "stop" ->
      (exists rest,
          fst (ChangeProcessState w r change processName)
          = fst (post w r ("supervisor." +:+ change +:+ "Process")
                   (ValueArg processName)) ++ rest)
      /\ (exists rest,
             fst (ChangeAllProcessState w r change)
             = fst (post w r ("supervisor." +:+ change +:+ "AllProcesses")
                      (WaitArg true)) ++ rest)).
Proof.
  split.
  - intros [H1 H2]. apply String.eqb_neq in H1, H2.
    unfold ChangeProcessState, ChangeAllProcessState.
    rewrite H1, H2. split; reflexivity.
  - intros Hverb.
    assert (Hok : (change =? "start")%string || (change =? "stop")%string = true).
    { destruct Hverb as [-> | ->]; reflexivity. }
    unfold ChangeProcessState, ChangeAllProcessState. rewrite Hok.
    cbn [negb].
    split.
    + destruct (post w r ("supervisor." +:+ change +:+ "Process")
                  (ValueArg processName)) as [tr [[[resp |] [err |]] |]];
        try destruct (DecodeStartStopReply w (Body resp)) as [reply err'] eqn:D;
        run; try rewrite D; cbn [app]; eexists; reflexivity.
    + destruct (post w r ("supervisor." +:+ change +:+ "AllProcesses")
                  (WaitArg true)) as [tr [[[resp |] [err |]] |]];
        try destruct (DecodeAllProcessInfoReply w (Body resp)) as [reply err'] eqn:D;
        run; try rewrite D; cbn [app]; eexists; reflexivity.
Qed.

Lemma state_change_validated_locally_witness :
  ChangeProcessState (answering http_url (ok_response [])) local_client
    "restart" "webapp"
  = ([], Returned ({| StartStopReply_Value := false |},
                   Some (Errorf "Incorrect required state")))
  /\ ChangeAllProcessState (answering http_url (ok_response [])) local_client
       "restart"
     = ([], Returned ({| AllProcessInfoReply_Value := [] |},
                      Some (Errorf "Incorrect required state"))).
Proof.
  apply (proj1 (state_change_validated_locally
                  (answering http_url (ok_response [])) local_client
                  "restart" "webapp")).
  split; discriminate.
Defined.

(** C6.  When [post] has obtained a response whose status code is outside
    200..299, it returns no response but a failure, and before it returns it
    has closed the body of that response. *)
Theorem post_closes_body_before_failing {ProcessInfo : Type}
    (w : World ProcessInfo) (r : XmlRPCClient) (method : string) (data : Args)
    (resp : Response) :
  obtains (fst (post w r method data)) resp ->
  ~ success_class (StatusCode resp) ->
  (exists err, snd (post w r method data) = Returned (None, Some err))
  /\ exists before after,
      fst (post w r method data) = before ++ BodyClose resp :: after
      /\ obtains before resp.
Proof.
  intros Ho Hc.
  destruct (post_rejects w r method data resp Ho Hc)
    as (Hres & before & after & Htr & Hb).
  split; [eexists; exact Hres |].
  exists (before ++ [Stdout ["Bad Response:"; Status resp]]), after.
  split.
  - rewrite Htr, <- app_assoc. reflexivity.
  - destruct Hb as (e & Hin & He). exists e. split; [| exact He].
    apply in_or_app. left. exact Hin.
Qed.

Lemma post_closes_body_before_failing_witness :
  (exists err,
      snd (post (answering unix_url not_found) (SetTimeout admin 5)
             "supervisor.getVersion" NoArgs)
      = Returned (None, Some err))
  /\ exists before after,
      fst (post (answering unix_url not_found) (SetTimeout admin 5)
             "supervisor.getVersion" NoArgs)
      = before ++ BodyClose not_found :: after
      /\ obtains before not_found.
Proof.
  apply (post_closes_body_before_failing
           (answering unix_url not_found) (SetTimeout admin 5)
           "supervisor.getVersion" NoArgs not_found).
  - vm_compute. eexists. split; [do 3 right; left; reflexivity | reflexivity].
  - unfold success_class. cbn. lia.
Defined.

(** C7, as amended.  The failure [post] returns for a response outside
    200..299 is the fixed message, whatever the status text; the status text
    itself is only printed, right before the body is closed. *)
Theorem post_failure_message_is_fixed {ProcessInfo : Type}
    (w : World ProcessInfo) (r : XmlRPCClient) (method : string) (data : Args)
    (resp : Response) :
  obtains (fst (post w r method data)) resp ->
  ~ success_class (StatusCode resp) ->
  snd (post w r method data)
  = Returned (None, Some (Errorf "Response code is NOT 2xx"))
  /\ exists before after,
      fst (post w r method data)
      = before ++ Stdout ["Bad Response:"; Status resp] :: BodyClose resp :: after.
Proof.
  intros Ho Hc.
  destruct (post_rejects w r method data resp Ho Hc)
    as (Hres & before & after & Htr & _).
  split; [exact Hres |]. exists before, after. exact Htr.
Qed.

Lemma post_failure_message_is_fixed_witness :
  snd (post (answering http_url not_found) local_client
         "supervisor.getVersion" NoArgs)
  = Returned (None, Some (Errorf "Response code is NOT 2xx"))
  /\ exists before after,
      fst (post (answering http_url not_found) local_client
             "supervisor.getVersion" NoArgs)
      = before ++ Stdout ["Bad Response:"; Status not_found]
               :: BodyClose not_found :: after.
Proof.
  apply (post_failure_message_is_fixed
           (answering http_url not_found) local_client
           "supervisor.getVersion" NoArgs not_found).
  - vm_compute. eexists. split; [left; reflexivity | reflexivity].
  - unfold success_class. cbn. lia.
Defined.

(** C7, as stated, fails: for the answer 404 Not Found the failure returned
    by [post] does not contain the status text. *)
Lemma post_failure_omits_status_text :
  obtains (fst (post (answering http_url not_found) local_client
                  "supervisor.getVersion" NoArgs)) not_found
  /\ exists err,
      snd (post (answering http_url not_found) local_client
             "supervisor.getVersion" NoArgs)
      = Returned (None, Some err)
      /\ contains err (Status not_found) = false.
Proof.
  split.
  - vm_compute. eexists. split; [left; reflexivity | reflexivity].
  - eexists. split; vm_compute; reflexivity.
Qed.

(** C8.  For a reply cut off after its first leaf value the processor
    reports a decode failure, yet [ReloadConfig] returns the value
    accumulated so far with a nil error. *)
Theorem ReloadConfig_truncated_reply :
  snd (ProcessXml manager truncated ReloadConfig_init) = Some decode_failure
  /\ snd (ReloadConfig (answering http_url (ok_response truncated)) local_client)
     = Returned
         ({| AddedGroup := []; ChangedGroup := ["a"]; RemovedGroup := [] |},
          None).
Proof. split; vm_compute; reflexivity. Qed.

(** C9.  Every request [post] hands to a transport, the HTTP client or the
    unix socket alike, carries the configured credentials when user and
    password are both non-empty, and carries none when either is empty. *)
Theorem post_attaches_basic_auth {ProcessInfo : Type}
    (w : World ProcessInfo) (r : XmlRPCClient) (method : string) (data : Args)
    (req : Request) :
  In req (requests_sent (fst (post w r method data))) ->
  (user r <> "" /\ password r <> "" ->
   BasicAuth req = Some (user r, password r))
  /\ (user r = "" \/ password r = "" -> BasicAuth req = None).
Proof.
  paths; intros Hin; cbn [requests_sent In] in Hin;
    repeat (destruct Hin as [<- | Hin]); try contradiction;
    cbn [BasicAuth Header_Set WithContext SetBasicAuth];
    match goal with
    | H : (0 <? len (user r)) && (0 <? len (password r)) = true |- _ =>
        apply both_nonempty in H; split; [reflexivity |];
        intros [E | E]; rewrite E in H; destruct H; congruence
    | H : (0 <? len (user r)) && (0 <? len (password r)) = false |- _ =>
        split; [| reflexivity];
        intros Hne; apply both_nonempty in Hne; congruence
    end.
Qed.

Lemma post_attaches_basic_auth_witness :
  BasicAuth admin_request = Some ("admin", "secret")
  /\ BasicAuth anonymous_request = None.
Proof.
  split.
  - apply (proj1 (post_attaches_basic_auth
                    (answering unix_url (ok_response [])) admin
                    "supervisor.getVersion" NoArgs admin_request
                    ltac:(vm_compute; left; reflexivity))).
    split; discriminate.
  - apply (proj2 (post_attaches_basic_auth
                    (answering http_url (ok_response [])) local_client
                    "supervisor.getVersion" NoArgs anonymous_request
                    ltac:(vm_compute; left; reflexivity))).
    left. reflexivity.
Defined.

(** C10.  When the address parses and its scheme is none of http, https and
    unix, [post] touches nothing, returns neither a response nor an error,
    and panics on the nil response at the status check. *)
Theorem post_unsupported_scheme_panics {ProcessInfo : Type}
    (w : World ProcessInfo) (r : XmlRPCClient) (method : string) (data : Args)
    (url : URL) :
  url_Parse w (serverurl r) = inl url ->
  Scheme url <> "http" -> Scheme url <> "https" -> Scheme url <> "unix" ->
  post w r method data = ([], Panicked).
Proof. apply post_unsupported_scheme. Qed.

Lemma post_unsupported_scheme_panics_witness :
  post (answering ftp_url (ok_response [])) local_client
    "supervisor.getVersion" NoArgs
  = ([], Panicked).
Proof.
  apply (post_unsupported_scheme_panics
           (answering ftp_url (ok_response [])) local_client
           "supervisor.getVersion" NoArgs ftp_url);
    [reflexivity | discriminate | discriminate | discriminate].
Defined.

End Claims.

(** ** Further properties of the request pipeline *)

Module PostMore.

Import Frame GoInt GoIntFacts XmlProcessor xmlrpcclient Reload Observe Readings.
Import PostFacts.

(** Name the event of an explicit trace a membership hypothesis speaks of. *)
Ltac member H :=
  cbn [In] in H;
  repeat (destruct H as [H | H]; [try discriminate H |]);
  try contradiction.

Section WithWorld.

Context {ProcessInfo : Type}.
Variable w : World ProcessInfo.

Lemma post_panics (r : XmlRPCClient)
    (method : string) (data : Args) :
  snd (post w r method data) = Panicked
  <-> exists url,
      url_Parse w (serverurl r) = inl url
      /\ Scheme url <> "http" /\ Scheme url <> "https" /\ Scheme url <> "unix".
Proof.
  split.
  - paths; intros H; try discriminate H.
    eexists. split; [reflexivity |].
    match goal with
    | H1 : _ || _ = false, H2 : (_ =? "unix")%string = false |- _ =>
        apply orb_false_iff in H1; destruct H1 as [Ha Hb];
        apply String.eqb_neq in Ha, Hb, H2; auto
    end.
  - intros (url & Hp & H1 & H2 & H3).
    rewrite (post_unsupported_scheme w r method data url Hp H1 H2 H3).
    reflexivity.
Qed.

(** X1.  [post] panics in one situation only: the address parses and its
    scheme is none of http, https and unix.  On every other path it
    returns. *)
Theorem post_panics_only_on_unsupported_scheme (r : XmlRPCClient)
    (method : string) (data : Args) :
  snd (post w r method data) = Panicked
  <-> exists url,
      url_Parse w (serverurl r) = inl url
      /\ Scheme url <> "http" /\ Scheme url <> "https" /\ Scheme url <> "unix".
Proof. apply post_panics. Qed.

(** X2.  [post] does nothing at all to the outside world exactly when the
    address does not parse or its scheme is unsupported; on every other
    path at least one event is recorded. *)
Theorem post_is_silent_only_without_transport (r : XmlRPCClient)
    (method : string) (data : Args) :
  fst (post w r method data) = []
  <-> (exists err, url_Parse w (serverurl r) = inr err)
      \/ (exists url,
             url_Parse w (serverurl r) = inl url
             /\ Scheme url <> "http" /\ Scheme url <> "https"
             /\ Scheme url <> "unix").
Proof.
  split.
  - paths; intros H; try discriminate H.
    + right. eexists. split; [reflexivity |].
      match goal with
      | H1 : _ || _ = false, H2 : (_ =? "unix")%string = false |- _ =>
          apply orb_false_iff in H1; destruct H1 as [Ha Hb];
          apply String.eqb_neq in Ha, Hb, H2; auto
      end.
    + left. eexists. reflexivity.
  - intros [(err & Hp) | (url & Hp & H1 & H2 & H3)].
    + unfold post. rewrite Hp. reflexivity.
    + rewrite (post_unsupported_scheme w r method data url Hp H1 H2 H3).
      reflexivity.
Qed.

(** X3.  Whatever [post] returns is either an error with no response, or a
    response with no error; a response it returns is one the transport
    handed over, its status code is in 200..299, and no body has been
    closed. *)
Theorem post_result_shape (r : XmlRPCClient) (method : string) (data : Args)
    (resp : option Response) (err : option error) :
  snd (post w r method data) = Returned (resp, err) ->
  (exists e, resp = None /\ err = Some e)
  \/ (exists resp',
         resp = Some resp' /\ err = None
         /\ obtains (fst (post w r method data)) resp'
         /\ success_class (StatusCode resp')
         /\ bodies_closed (fst (post w r method data)) = []).
Proof.
  paths; intros H; try discriminate H; injection H as <- <-;
    try (left; eexists; split; reflexivity).
  all: right; eexists; split; [reflexivity |]; split; [reflexivity |];
    split; [| split; [apply accepted; assumption | reflexivity]];
    repeat first [apply obtains_here; reflexivity | apply obtains_later].
Qed.

(** X4.  The status class alone decides what happens to a response [post]
    obtained: with a code in 200..299 it is returned and nothing is closed;
    with any other code its body is closed exactly once. *)
Theorem post_decides_by_status_class (r : XmlRPCClient) (method : string)
    (data : Args) (resp : Response) :
  obtains (fst (post w r method data)) resp ->
  (success_class (StatusCode resp) ->
   snd (post w r method data) = Returned (Some resp, None)
   /\ bodies_closed (fst (post w r method data)) = [])
  /\ (~ success_class (StatusCode resp) ->
      bodies_closed (fst (post w r method data)) = [resp]).
Proof.
  intros Ho.
  paths; obtained; (split; [intros Hs | intros Hn]);
    try (split; reflexivity); try reflexivity;
    try (match goal with
         | H : negb _ = false |- _ => apply accepted in H; contradiction
         end);
    match goal with
    | H : negb _ = true |- _ =>
        apply negb_true_iff, Z.eqb_neq in H; exfalso; apply H;
        apply status_class; assumption
    end.
Qed.

(** X5.  One call of [post] hands at most one request to a transport: nothing is retried, and at most one answer
    of the outside world is an error, since [post] gives up at the first. *)
Theorem post_sends_at_most_once (r : XmlRPCClient) (method : string)
    (data : Args) :
  (length (requests_sent (fst (post w r method data))) <= 1)%nat
  /\ (length (errors_answered (fst (post w r method data))) <= 1)%nat.
Proof. paths; split; cbn; lia. Qed.

Lemma post_request (r : XmlRPCClient) (method : string) (data : Args)
    (e : io) (req : Request) :
  In e (fst (post w r method data)) ->
  request_of e = Some req ->
  Method req = "POST"
  /\ Payload req = EncodeClientRequest w method data
  /\ Header req !! "Content-Type" = Some "text/xml"
  /\ target_of r e = Some (Target req).
Proof.
  paths; intros Hin Hreq; cbn [In] in Hin;
    repeat (destruct Hin as [<- | Hin];
            [cbn [request_of] in Hreq; try discriminate Hreq |]);
    try contradiction;
    injection Hreq as <-;
    cbn [Method Payload Header Target Header_Set WithContext SetBasicAuth
         target_of];
    (split; [reflexivity |]); (split; [reflexivity |]);
    (split; [apply lookup_insert_eq | reflexivity]).
Qed.

(** X6.  Every request [post] hands to a transport is a POST of the encoded
    call whose Content-Type header is text/xml, with or without
    credentials; over HTTP its target is the configured address followed by
    /RPC2, on the socket it is /RPC2. *)
Theorem post_request_shape (r : XmlRPCClient) (method : string) (data : Args)
    (e : io) (req : Request) :
  In e (fst (post w r method data)) ->
  request_of e = Some req ->
  Method req = "POST"
  /\ Payload req = EncodeClientRequest w method data
  /\ Header req !! "Content-Type" = Some "text/xml"
  /\ target_of r e = Some (Target req).
Proof. apply post_request. Qed.

Lemma post_request_auth (r : XmlRPCClient) (method : string) (data : Args)
    (req : Request) :
  In req (requests_sent (fst (post w r method data))) ->
  BasicAuth req
  = if (0 <? len (user r)) && (0 <? len (password r))
    then Some (user r, password r) else None.
Proof.
  paths; intros Hin; cbn [requests_sent In] in Hin;
    repeat (destruct Hin as [<- | Hin]); try contradiction; reflexivity.
Qed.

(** X7.  Once the unix socket is connected, closing the connection is the
    last thing [post] does, on every path: also when it returns the
    response, whose body the caller has yet to read. *)
Theorem post_closes_socket_last (r : XmlRPCClient) (method : string)
    (data : Args) (path : string) (limit : option Z) (conn : Conn) :
  In (Dial path limit (inl conn)) (fst (post w r method data)) ->
  last (fst (post w r method data)) = Some (ConnClose conn)
  /\ ~ In (ConnClose conn) (removelast (fst (post w r method data))).
Proof.
  paths; intros Hin; member Hin; injection Hin as <- <- <-;
    (split; [reflexivity |]);
    cbn [removelast In]; intros H; member H.
Qed.

(** X8.  Over HTTP the request carries a deadline exactly when the
    configured timeout is positive, and then cancelling its context is the
    last thing [post] does, also when it returns the response; with a zero
    or negative timeout nothing is ever cancelled. *)
Theorem post_bounds_http_request (r : XmlRPCClient) (method : string)
    (data : Args) (req : Request) (answer : Response + error) :
  In (ClientDo req answer) (fst (post w r method data)) ->
  Context req = limit_of r
  /\ (if 0 <? timeout r
      then last (fst (post w r method data)) = Some CtxCancel
      else ~ In CtxCancel (fst (post w r method data))).
Proof.
  unfold limit_of.
  paths; intros Hin; member Hin; injection Hin as <- <-;
    (split; [reflexivity |]);
    try reflexivity; intros H; member H.
Qed.

(** X9.  On the unix socket the configured timeout bounds the dial and
    becomes the deadline of the connection exactly when it is positive: the
    dial gets it as its limit, a deadline is only ever set to it, and after
    a successful dial it is set. *)
Theorem post_bounds_socket (r : XmlRPCClient) (method : string) (data : Args) :
  (forall path limit answer,
      In (Dial path limit answer) (fst (post w r method data)) ->
      limit = limit_of r)
  /\ (forall conn after answer,
         In (SetDeadline conn after answer) (fst (post w r method data)) ->
         after = timeout r /\ 0 < timeout r)
  /\ (forall path limit conn,
         In (Dial path limit (inl conn)) (fst (post w r method data)) ->
         0 < timeout r ->
         exists answer,
           In (SetDeadline conn (timeout r) answer) (fst (post w r method data))).
Proof.
  unfold limit_of.
  paths; (split; [| split]).
  all: try (intros path limit answer Hin; member Hin; injection Hin as _ <- _;
            reflexivity).
  all: try (intros conn after answer Hin; member Hin; injection Hin as _ <- _;
            split; [reflexivity | apply Z.ltb_lt; assumption]).
  all: intros path limit conn Hin Hpos; member Hin;
    try (match goal with
         | H : (0 <? _) = false |- _ =>
             apply Z.ltb_ge in H; lia
         end);
    injection Hin as _ _ <-;
    eexists; cbn [In]; right; left; reflexivity.
Qed.

(** X10.  An error [post] returns is either the fixed status failure or,
    unchanged, the error the outside world answered with: from parsing the
    address, from building the request, or from the transport. *)
Theorem post_preserves_cause (r : XmlRPCClient) (method : string)
    (data : Args) (resp : option Response) (err : error) :
  snd (post w r method data) = Returned (resp, Some err) ->
  err = Errorf "Response code is NOT 2xx"
  \/ url_Parse w (serverurl r) = inr err
  \/ (exists target, NewRequest_error w "POST" target = Some err)
  \/ In err (errors_answered (fst (post w r method data))).
Proof.
  paths; intros H; try discriminate H; injection H as _ <-;
    first
      [ left; reflexivity
      | right; left; reflexivity
      | right; right; left; eexists; eassumption
      | right; right; right; cbn [errors_answered In]; left; reflexivity ].
Qed.

End WithWorld.

Lemma post_result_shape_witness :
  (exists e : error, Some (ok_response []) = None /\ None = Some e)
  \/ (exists resp',
         Some (ok_response []) = Some resp' /\ None = (None : option error)
         /\ obtains (fst (post (answering http_url (ok_response []))
                           local_client "supervisor.getVersion" NoArgs)) resp'
         /\ success_class (StatusCode resp')
         /\ bodies_closed (fst (post (answering http_url (ok_response []))
                                 local_client "supervisor.getVersion" NoArgs))
            = []).
Proof.
  apply (post_result_shape (answering http_url (ok_response [])) local_client
           "supervisor.getVersion" NoArgs (Some (ok_response [])) None).
  vm_compute. reflexivity.
Defined.

Lemma post_decides_by_status_class_witness :
  bodies_closed (fst (post (answering unix_url not_found) admin
                        "supervisor.getVersion" NoArgs))
  = [not_found].
Proof.
  apply (post_decides_by_status_class (answering unix_url not_found) admin
           "supervisor.getVersion" NoArgs not_found).
  - vm_compute. eexists. split; [do 2 right; left; reflexivity | reflexivity].
  - unfold success_class. cbn. lia.
Defined.

Lemma post_request_shape_witness :
  Method admin_request = "POST"
  /\ Payload admin_request
     = EncodeClientRequest (answering unix_url (ok_response []))
         "supervisor.getVersion" NoArgs
  /\ Header admin_request !! "Content-Type" = Some "text/xml"
  /\ target_of admin (ReqWrite admin_request 3%nat None)
     = Some (Target admin_request).
Proof.
  apply (post_request_shape (answering unix_url (ok_response [])) admin
           "supervisor.getVersion" NoArgs
           (ReqWrite admin_request 3%nat None) admin_request).
  - vm_compute. right. left. reflexivity.
  - reflexivity.
Defined.

Lemma post_closes_socket_last_witness :
  last (fst (post (answering unix_url (ok_response [])) admin
               "supervisor.getVersion" NoArgs))
  = Some (ConnClose 3%nat)
  /\ ~ In (ConnClose 3%nat)
        (removelast (fst (post (answering unix_url (ok_response [])) admin
                            "supervisor.getVersion" NoArgs))).
Proof.
  apply (post_closes_socket_last (answering unix_url (ok_response [])) admin
           "supervisor.getVersion" NoArgs "/tmp/supervisord.sock" None 3%nat).
  vm_compute. left. reflexivity.
Defined.

Lemma post_bounds_http_request_witness :
  Context (WithContext anonymous_request 5) = limit_of (SetTimeout local_client 5)
  /\ (if 0 <? timeout (SetTimeout local_client 5)
      then last (fst (post (answering http_url (ok_response []))
                        (SetTimeout local_client 5)
                        "supervisor.getVersion" NoArgs))
           = Some CtxCancel
      else ~ In CtxCancel
             (fst (post (answering http_url (ok_response []))
                     (SetTimeout local_client 5)
                     "supervisor.getVersion" NoArgs))).
Proof.
  apply (post_bounds_http_request (answering http_url (ok_response []))
           (SetTimeout local_client 5) "supervisor.getVersion" NoArgs
           (WithContext anonymous_request 5) (inl (ok_response []))).
  vm_compute. left. reflexivity.
Defined.

Lemma post_bounds_socket_witness :
  exists answer,
    In (SetDeadline 3%nat (timeout (SetTimeout admin 5)) answer)
       (fst (post (answering unix_url (ok_response [])) (SetTimeout admin 5)
               "supervisor.getVersion" NoArgs)).
Proof.
  apply (proj2 (proj2 (post_bounds_socket
                         (answering unix_url (ok_response []))
                         (SetTimeout admin 5) "supervisor.getVersion" NoArgs))
           "/tmp/supervisord.sock" (Some 5) 3%nat).
  - vm_compute. left. reflexivity.
  - reflexivity.
Defined.

Lemma post_preserves_cause_witness :
  "Response code is NOT 2xx" = Errorf "Response code is NOT 2xx"
  \/ url_Parse (answering http_url not_found) (serverurl local_client)
     = inr "Response code is NOT 2xx"
  \/ (exists target,
         NewRequest_error (answering http_url not_found) "POST" target
         = Some "Response code is NOT 2xx")
  \/ In "Response code is NOT 2xx"
       (errors_answered (fst (post (answering http_url not_found) local_client
                                "supervisor.getVersion" NoArgs))).
Proof.
  apply (post_preserves_cause (answering http_url not_found) local_client
           "supervisor.getVersion" NoArgs None "Response code is NOT 2xx").
  vm_compute. reflexivity.
Defined.

Lemma requests_sent_event (tr : list io) (req : Request) :
  In req (requests_sent tr) ->
  exists e, In e tr /\ request_of e = Some req.
Proof.
  induction tr as [| e tr IH]; [intros [] |].
  intros Hin.
  destruct e; cbn [requests_sent In] in Hin;
    try (destruct (IH Hin) as (e' & He' & Hr); exists e';
         split; [right; exact He' | exact Hr]);
    destruct Hin as [<- | Hin];
    try (eexists; split; [left; reflexivity | reflexivity]);
    destruct (IH Hin) as (e' & He' & Hr); exists e';
    (split; [right; exact He' | exact Hr]).
Qed.

Lemma post_payload {ProcessInfo : Type} (w : World ProcessInfo)
    (r : XmlRPCClient) (method : string) (data : Args) (req : Request) :
  In req (requests_sent (fst (post w r method data))) ->
  Payload req = EncodeClientRequest w method data.
Proof.
  intros Hin. destruct (requests_sent_event _ _ Hin) as (e & He & Hr).
  apply (post_request w r method data e req He Hr).
Qed.

Lemma requests_sent_app (tr tr' : list io) :
  requests_sent (tr ++ tr') = requests_sent tr ++ requests_sent tr'.
Proof.
  induction tr as [| e tr IH]; [reflexivity |].
  destruct e; cbn [app requests_sent]; rewrite IH; reflexivity.
Qed.

End PostMore.

(** ** Further properties of the methods *)

Module MethodsMore.

Import Frame GoInt GoIntFacts XmlProcessor xmlrpcclient Reload Observe Readings.
Import PostFacts PostMore.

(** A valid verb passes the test at the head of the state-changing
    methods. *)
Lemma verb_accepted (change : string) :
  change = "start" \/ change = "stop" ->
  negb ((change =? "start")%string || (change =? "stop")%string) = false.
Proof. intros [-> | ->]; reflexivity. Qed.

Section WithWorld.

Context {ProcessInfo : Type}.
Variable w : World ProcessInfo.

(** X11.  When [post] has handed over a response, each method with a
    uniform reply closes the body exactly once, as its last action, and
    returns the reply and the error of the decoder as they are, a decode
    error included. *)
Theorem methods_return_what_the_decoder_returns (r : XmlRPCClient)
    (tr : list io) (resp : Response) :
  (post w r "supervisor.getVersion" NoArgs = (tr, Returned (Some resp, None)) ->
   GetVersion w r
   = (tr ++ [BodyClose resp], Returned (DecodeVersionReply w (Body resp))))
  /\ (post w r "supervisor.getAllProcessInfo" NoArgs
      = (tr, Returned (Some resp, None)) ->
      GetAllProcessInfo w r
      = (tr ++ [BodyClose resp],
         Returned (DecodeAllProcessInfoReply w (Body resp))))
  /\ (post w r "supervisor.shutdown" NoArgs = (tr, Returned (Some resp, None)) ->
      Shutdown w r
      = (tr ++ [BodyClose resp], Returned (DecodeStartStopReply w (Body resp))))
  /\ (forall change processName,
         change = "start" \/ change = "stop" ->
         post w r ("supervisor." +:+ change +:+ "Process") (ValueArg processName)
         = (tr, Returned (Some resp, None)) ->
         ChangeProcessState w r change processName
         = (tr ++ [BodyClose resp],
            Returned (DecodeStartStopReply w (Body resp))))
  /\ (forall change,
         change = "start" \/ change = "stop" ->
         post w r ("supervisor." +:+ change +:+ "AllProcesses") (WaitArg true)
         = (tr, Returned (Some resp, None)) ->
         ChangeAllProcessState w r change
         = (tr ++ [BodyClose resp],
            Returned (DecodeAllProcessInfoReply w (Body resp)))).
Proof.
  repeat split.
  - intros H. unfold GetVersion. rewrite H. run.
    destruct (DecodeVersionReply w (Body resp)). reflexivity.
  - intros H. unfold GetAllProcessInfo. rewrite H. run.
    destruct (DecodeAllProcessInfoReply w (Body resp)). reflexivity.
  - intros H. unfold Shutdown. rewrite H. run.
    destruct (DecodeStartStopReply w (Body resp)). reflexivity.
  - intros change processName Hv H. unfold ChangeProcessState.
    rewrite (verb_accepted change Hv), H. run.
    destruct (DecodeStartStopReply w (Body resp)). reflexivity.
  - intros change Hv H. unfold ChangeAllProcessState.
    rewrite (verb_accepted change Hv), H. run.
    destruct (DecodeAllProcessInfoReply w (Body resp)). reflexivity.
Qed.

(** X12.  When [post] fails, every method returns that very error with the
    zero value of its reply and does nothing more: no body is closed and
    nothing is decoded. *)
Theorem methods_pass_on_the_failure_of_post (r : XmlRPCClient)
    (tr : list io) (err : error) :
  (post w r "supervisor.getVersion" NoArgs = (tr, Returned (None, Some err)) ->
   GetVersion w r = (tr, Returned ({| VersionReply_Value := "" |}, Some err)))
  /\ (post w r "supervisor.getAllProcessInfo" NoArgs
      = (tr, Returned (None, Some err)) ->
      GetAllProcessInfo w r
      = (tr, Returned ({| AllProcessInfoReply_Value := [] |}, Some err)))
  /\ (post w r "supervisor.shutdown" NoArgs = (tr, Returned (None, Some err)) ->
      Shutdown w r
      = (tr, Returned ({| StartStopReply_Value := false |}, Some err)))
  /\ (post w r "supervisor.reloadConfig" NoArgs
      = (tr, Returned (None, Some err)) ->
      ReloadConfig w r
      = (tr, Returned ({| AddedGroup := []; ChangedGroup := [];
                          RemovedGroup := [] |}, Some err)))
  /\ (forall change processName,
         change = "start" \/ change = "stop" ->
         post w r ("supervisor." +:+ change +:+ "Process") (ValueArg processName)
         = (tr, Returned (None, Some err)) ->
         ChangeProcessState w r change processName
         = (tr, Returned ({| StartStopReply_Value := false |}, Some err)))
  /\ (forall change,
         change = "start" \/ change = "stop" ->
         post w r ("supervisor." +:+ change +:+ "AllProcesses") (WaitArg true)
         = (tr, Returned (None, Some err)) ->
         ChangeAllProcessState w r change
         = (tr, Returned ({| AllProcessInfoReply_Value := [] |}, Some err))).
Proof.
  repeat split.
  - intros H. unfold GetVersion. rewrite H. run. rewrite app_nil_r. reflexivity.
  - intros H. unfold GetAllProcessInfo. rewrite H. run.
    rewrite app_nil_r. reflexivity.
  - intros H. unfold Shutdown. rewrite H. run. rewrite app_nil_r. reflexivity.
  - intros H. unfold ReloadConfig. rewrite H. run. rewrite app_nil_r. reflexivity.
  - intros change processName Hv H. unfold ChangeProcessState.
    rewrite (verb_accepted change Hv), H. run. rewrite app_nil_r. reflexivity.
  - intros change Hv H. unfold ChangeAllProcessState.
    rewrite (verb_accepted change Hv), H. run. rewrite app_nil_r. reflexivity.
Qed.











(** A method whose body is the common sequence hands to the transports
    exactly the requests of its call of [post]. *)
Ltac requests_of_post :=
  match goal with
  | |- context [call (post ?w ?r ?m ?d)] =>
      let tr := fresh "tr" in
      destruct (post w r m d) as [tr [[[resp |] [err |]] |]];
      run;
      try match goal with
          | |- context [DecodeVersionReply ?w' ?b] =>
              destruct (DecodeVersionReply w' b)
          | |- context [DecodeStartStopReply ?w' ?b] =>
              destruct (DecodeStartStopReply w' b)
          | |- context [DecodeAllProcessInfoReply ?w' ?b] =>
              destruct (DecodeAllProcessInfoReply w' b)
          | |- context [ProcessXml ?m ?b ?l] => destruct (ProcessXml m b l)
          end;
      run; cbn [app]; rewrite ?requests_sent_app; cbn [requests_sent];
      rewrite ?app_nil_r; reflexivity
  end.

Lemma GetVersion_requests (r : XmlRPCClient) :
  requests_sent (fst (GetVersion w r))
  = requests_sent (fst (post w r "supervisor.getVersion" NoArgs)).
Proof. unfold GetVersion. requests_of_post. Qed.

Lemma GetAllProcessInfo_requests (r : XmlRPCClient) :
  requests_sent (fst (GetAllProcessInfo w r))
  = requests_sent (fst (post w r "supervisor.getAllProcessInfo" NoArgs)).
Proof. unfold GetAllProcessInfo. requests_of_post. Qed.

Lemma Shutdown_requests (r : XmlRPCClient) :
  requests_sent (fst (Shutdown w r))
  = requests_sent (fst (post w r "supervisor.shutdown" NoArgs)).
Proof. unfold Shutdown. requests_of_post. Qed.

Lemma ReloadConfig_requests (r : XmlRPCClient) :
  requests_sent (fst (ReloadConfig w r))
  = requests_sent (fst (post w r "supervisor.reloadConfig" NoArgs)).
Proof. unfold ReloadConfig. requests_of_post. Qed.

Lemma ChangeProcessState_requests (r : XmlRPCClient)
    (change processName : string) :
  requests_sent (fst (ChangeProcessState w r change processName))
  = if negb ((change =? "start")%string || (change =? "stop")%string)
    then []
    else requests_sent
           (fst (post w r ("supervisor." +:+ change +:+ "Process")
                   (ValueArg processName))).
Proof.
  unfold ChangeProcessState.
  destruct (negb ((change =? "start")%string || (change =? "stop")%string));
    [reflexivity | requests_of_post].
Qed.

Lemma ChangeAllProcessState_requests (r : XmlRPCClient) (change : string) :
  requests_sent (fst (ChangeAllProcessState w r change))
  = if negb ((change =? "start")%string || (change =? "stop")%string)
    then []
    else requests_sent
           (fst (post w r ("supervisor." +:+ change +:+ "AllProcesses")
                   (WaitArg true))).
Proof.
  unfold ChangeAllProcessState.
  destruct (negb ((change =? "start")%string || (change =? "stop")%string));
    [reflexivity | requests_of_post].
Qed.

(** X14.  The only requests a method sends are those of its one call of
    [post], and they carry the encoding of the method's own remote call:
    getVersion, getAllProcessInfo, shutdown and reloadConfig without
    arguments, startProcess or stopProcess with the process name,
    startAllProcesses or stopAllProcesses with wait set. *)
Theorem methods_send_their_own_call (r : XmlRPCClient)
    (processName : string) (req : Request) :
  (In req (requests_sent (fst (GetVersion w r))) ->
   Payload req = EncodeClientRequest w "supervisor.getVersion" NoArgs)
  /\ (In req (requests_sent (fst (GetAllProcessInfo w r))) ->
      Payload req = EncodeClientRequest w "supervisor.getAllProcessInfo" NoArgs)
  /\ (In req (requests_sent (fst (Shutdown w r))) ->
      Payload req = EncodeClientRequest w "supervisor.shutdown" NoArgs)
  /\ (In req (requests_sent (fst (ReloadConfig w r))) ->
      Payload req = EncodeClientRequest w "supervisor.reloadConfig" NoArgs)
  /\ (In req (requests_sent (fst (ChangeProcessState w r "start" processName))) ->
      Payload req
      = EncodeClientRequest w "supervisor.startProcess" (ValueArg processName))
  /\ (In req (requests_sent (fst (ChangeProcessState w r "stop" processName))) ->
      Payload req
      = EncodeClientRequest w "supervisor.stopProcess" (ValueArg processName))
  /\ (In req (requests_sent (fst (ChangeAllProcessState w r "start"))) ->
      Payload req
      = EncodeClientRequest w "supervisor.startAllProcesses" (WaitArg true))
  /\ (In req (requests_sent (fst (ChangeAllProcessState w r "stop"))) ->
      Payload req
      = EncodeClientRequest w "supervisor.stopAllProcesses" (WaitArg true)).
Proof.
  rewrite GetVersion_requests, GetAllProcessInfo_requests, Shutdown_requests,
    ReloadConfig_requests, !ChangeProcessState_requests,
    !ChangeAllProcessState_requests.
  cbn [String.eqb Ascii.eqb Bool.eqb orb negb].
  repeat split; apply post_payload.
Qed.

(** X15.  Credentials reach the wire only after both setters: a client
    fresh from [NewXmlRPCClient], or with only the user or only the password
    set, sends none; with a non-empty user and password set in either order
    every request carries exactly them, and [SetTimeout] does not disturb
    them. *)
Theorem credentials_need_both_setters (address u p : string) (d : Z)
    (method : string) (data : Args) (req : Request) :
  (In req (requests_sent
             (fst (post w (NewXmlRPCClient address) method data))) ->
   BasicAuth req = None)
  /\ (In req (requests_sent
                (fst (post w (SetUser (NewXmlRPCClient address) u)
                        method data))) ->
      BasicAuth req = None)
  /\ (In req (requests_sent
                (fst (post w (SetPassword (NewXmlRPCClient address) p)
                        method data))) ->
      BasicAuth req = None)
  /\ (u <> "" -> p <> "" ->
      In req (requests_sent
                (fst (post w (SetTimeout
                                (SetPassword
                                   (SetUser (NewXmlRPCClient address) u) p) d)
                        method data))) ->
      BasicAuth req = Some (u, p))
  /\ (u <> "" -> p <> "" ->
      In req (requests_sent
                (fst (post w (SetUser
                                (SetPassword (NewXmlRPCClient address) p) u)
                        method data))) ->
      BasicAuth req = Some (u, p)).
Proof.
  repeat split.
  - intros Hin. rewrite (post_request_auth w _ _ _ _ Hin). reflexivity.
  - intros Hin. rewrite (post_request_auth w _ _ _ _ Hin).
    cbn [user password SetUser NewXmlRPCClient]. cbn.
    rewrite andb_false_r. reflexivity.
  - intros Hin. rewrite (post_request_auth w _ _ _ _ Hin). reflexivity.
  - intros Hu Hp Hin. rewrite (post_request_auth w _ _ _ _ Hin).
    cbn [user password SetUser SetPassword SetTimeout NewXmlRPCClient].
    rewrite (proj2 (both_nonempty u p)) by auto. reflexivity.
  - intros Hu Hp Hin. rewrite (post_request_auth w _ _ _ _ Hin).
    cbn [user password SetUser SetPassword SetTimeout NewXmlRPCClient].
    rewrite (proj2 (both_nonempty u p)) by auto. reflexivity.
Qed.

End WithWorld.

Lemma methods_return_what_the_decoder_returns_witness :
  GetVersion (answering http_url (ok_response [])) local_client
  = ([ClientDo anonymous_request (inl (ok_response []))]
     ++ [BodyClose (ok_response [])],
     Returned (DecodeVersionReply (answering http_url (ok_response []))
                 (Body (ok_response [])))).
Proof.
  apply (proj1 (methods_return_what_the_decoder_returns
                  (answering http_url (ok_response [])) local_client
                  [ClientDo anonymous_request (inl (ok_response []))]
                  (ok_response []))).
  vm_compute. reflexivity.
Defined.

Lemma methods_pass_on_the_failure_of_post_witness :
  ReloadConfig (answering http_url not_found) local_client
  = ([ClientDo
        (Header_Set
           {| Method := "POST"; Target := "http://localhost:9001/RPC2";
              Payload := "supervisor.reloadConfig";
              Header := ∅; BasicAuth := None; Context := None |}
           "Content-Type" "text/xml")
        (inl not_found);
      Stdout ["Bad Response:"; "404 Not Found"];
      BodyClose not_found],
     Returned ({| AddedGroup := []; ChangedGroup := []; RemovedGroup := [] |},
               Some "Response code is NOT 2xx")).
Proof.
  apply (proj1 (proj2 (proj2 (proj2
           (methods_pass_on_the_failure_of_post
              (answering http_url not_found) local_client _ _))))).
  vm_compute. reflexivity.
Defined.

Lemma methods_send_their_own_call_witness :
  Payload anonymous_request
  = EncodeClientRequest (answering http_url (ok_response []))
      "supervisor.getVersion" NoArgs.
Proof.
  apply (proj1 (methods_send_their_own_call
                  (answering http_url (ok_response [])) local_client
                  "webapp" anonymous_request)).
  vm_compute. left. reflexivity.
Defined.

Lemma credentials_need_both_setters_witness :
  BasicAuth admin_request = Some ("admin", "secret").
Proof.
  apply (proj1 (proj2 (proj2 (proj2
           (credentials_need_both_setters
              (answering unix_url (ok_response []))
              "unix:///tmp/supervisord.sock" "admin" "secret" 0
              "supervisor.getVersion" NoArgs admin_request))))).
  - discriminate.
  - discriminate.
  - vm_compute. left. reflexivity.
Defined.

End MethodsMore.

(** ** Further properties of the positional decode *)

Module ReloadMore.

Import Frame GoInt GoIntFacts XmlProcessor xmlrpcclient Reload Observe Readings.
Import ReloadFacts.

Lemma advances_le (ps : list Pulse) :
  forall after_leaf : bool, (advances after_leaf ps <= length ps)%nat.
Proof.
  induction ps as [| [value |] ps IH]; intros after_leaf; cbn [advances length].
  - lia.
  - specialize (IH true). lia.
  - specialize (IH false). destruct after_leaf; lia.
Qed.

Lemma deliver_advances (ps : list Pulse) :
  forall l : ReloadConfigLocals,
    min_int <= i l ->
    i l + Z.of_nat (length ps) <= max_int ->
    i (deliver ps l) = i l + Z.of_nat (advances (has_value l) ps).
Proof.
  induction ps as [| p ps IH]; intros l Hmin Hmax.
  - cbn. lia.
  - rewrite deliver_cons. cbn [length] in Hmax.
    assert (Hstep : incr (i l) = i l + 1) by (apply incr_no_wrap; lia).
    destruct p as [value |]; cbn [fire advances].
    + rewrite IH; cbn [ReloadConfig_leaf i has_value]; rewrite ?Hstep; lia.
    + unfold ReloadConfig_nonleaf.
      destruct (has_value l) eqn:Hv; cbn [i has_value].
      * rewrite IH; cbn [i has_value]; lia.
      * rewrite IH; cbn [i has_value]; rewrite ?Hstep, ?Hv; lia.
Qed.

Lemma deliver_flag (ps : list Pulse) (p : Pulse) (l : ReloadConfigLocals) :
  has_value (deliver (ps ++ [p]) l) = is_leaf p.
Proof.
  rewrite deliver_app. cbn [deliver fold_left].
  destruct p as [value |]; cbn [fire is_leaf]; [reflexivity |].
  unfold ReloadConfig_nonleaf.
  destruct (has_value (deliver ps l)) eqn:E; cbn [has_value]; auto.
Qed.

(** X16.  Below 2^63 callbacks the index is one less than the number of
    requests to advance it: one for every leaf value and one for every
    boundary that does not directly follow a leaf value.  The flag is set
    exactly when the most recent callback was a leaf value. *)
Theorem index_counts_the_advances (ps : list Pulse) :
  Z.of_nat (length ps) < 2 ^ 63 ->
  i (deliver ps ReloadConfig_init) = Z.of_nat (advances false ps) - 1
  /\ has_value (deliver ps ReloadConfig_init)
     = match last ps with
       | Some p => is_leaf p
       | None => false
       end.
Proof.
  intros Hlen. split.
  - rewrite deliver_advances; cbn [i has_value ReloadConfig_init].
    + lia.
    + pose proof min_int_neg. lia.
    + rewrite max_int_val. lia.
  - destruct ps as [| p ps] using rev_ind; [reflexivity |].
    rewrite deliver_flag, last_snoc. reflexivity.
Qed.

Lemma index_counts_the_advances_witness :
  i (deliver [LeafValue "a"; Boundary; Boundary; LeafValue "c"; Boundary]
       ReloadConfig_init) = 2
  /\ has_value
       (deliver [LeafValue "a"; Boundary; Boundary; LeafValue "c"; Boundary]
          ReloadConfig_init) = false.
Proof.
  apply (index_counts_the_advances
           [LeafValue "a"; Boundary; Boundary; LeafValue "c"; Boundary]).
  vm_compute. reflexivity.
Defined.

(** A callback extends the accumulators, read one after the other, at the
    end: the slots the index has not reached are still empty. *)
Lemma fire_flat (l : ReloadConfigLocals) (p : Pulse) :
  i l < max_int -> slots l ->
  flat (reply (fire l p)) = flat (reply l)
  \/ exists value, p = LeafValue value
                   /\ flat (reply (fire l p)) = flat (reply l) ++ [value].
Proof.
  intros Hmax [Hi _ _ _ Hae Hce Hre].
  pose proof min_int_neg as Hmin.
  assert (Hstep : incr (i l) = i l + 1) by (apply incr_no_wrap; lia).
  destruct p as [value |]; cbn [fire].
  - unfold ReloadConfig_leaf. cbn [reply]. rewrite Hstep.
    destruct (i l + 1) as [| [q | q |] |] eqn:Ek; try destruct q;
      try (left; reflexivity); try lia;
      right; exists value; (split; [reflexivity |]); unfold flat;
      cbn [AddedGroup ChangedGroup RemovedGroup];
      try rewrite (Hce ltac:(lia)); try rewrite (Hre ltac:(lia));
      cbn [app]; rewrite ?app_nil_r, ?app_assoc; reflexivity.
  - left. rewrite nonleaf_keeps_reply. reflexivity.
Qed.

Lemma deliver_flat (ps : list Pulse) :
  forall l : ReloadConfigLocals,
    slots l ->
    i l + Z.of_nat (length ps) <= max_int ->
    exists stored,
      flat (reply (deliver ps l)) = flat (reply l) ++ stored
      /\ stored `sublist_of` leaf_values ps.
Proof.
  induction ps as [| p ps IH]; intros l Hs Hmax.
  - exists []. split; [cbn; rewrite app_nil_r; reflexivity | constructor].
  - rewrite deliver_cons. cbn [length] in Hmax.
    assert (Hi : -1 <= i l) by (destruct Hs; assumption).
    pose proof min_int_neg.
    destruct (IH (fire l p)) as (stored & Hflat & Hsub).
    { apply slots_fire; [lia | exact Hs]. }
    { pose proof (fire_index l p ltac:(lia)). lia. }
    destruct (fire_flat l p ltac:(lia) Hs) as [E | (value & -> & E)].
    + exists stored. split; [rewrite Hflat, E; reflexivity |].
      destruct p as [value |]; cbn [leaf_values];
        [apply sublist_cons |]; exact Hsub.
    + exists (value :: stored). split.
      * rewrite Hflat, E, <- app_assoc. reflexivity.
      * cbn [leaf_values]. apply sublist_skip. exact Hsub.
Qed.

(** X17.  Below 2^63 callbacks the values of added, changed and removed,
    read in that order, are a subsequence of the leaf values in document
    order: nothing is invented, duplicated or reordered, and a value that
    arrived later never sits in an earlier accumulator. *)
Theorem stored_values_keep_document_order (ps : list Pulse) :
  Z.of_nat (length ps) < 2 ^ 63 ->
  flat (reply (deliver ps ReloadConfig_init)) `sublist_of` leaf_values ps.
Proof.
  intros Hlen.
  destruct (deliver_flat ps ReloadConfig_init slots_init) as (stored & E & Hsub).
  - rewrite max_int_val. cbn [i ReloadConfig_init]. lia.
  - rewrite E. exact Hsub.
Qed.

Lemma stored_values_keep_document_order_witness :
  flat (reply (deliver (pulses [] scenario) ReloadConfig_init))
  `sublist_of` leaf_values (pulses [] scenario).
Proof.
  apply (stored_values_keep_document_order (pulses [] scenario)).
  vm_compute. reflexivity.
Defined.

Lemma pick_cons (k n : nat) (g : list string) (rest : list (list string)) :
  pick k n (g :: rest) = pick k n [g] ++ pick k (S n) rest.
Proof.
  unfold pick.
  destruct (Nat.leb_spec n k) as [Hle | Hgt].
  - destruct (Nat.leb_spec (S n) k) as [Hlt | Hge].
    + replace (k - n)%nat with (S (k - S n)) by lia. cbn [nth].
      destruct (k - S n)%nat; reflexivity.
    + replace (k - n)%nat with 0%nat by lia. cbn [nth].
      rewrite app_nil_r. reflexivity.
  - destruct (Nat.leb_spec (S n) k); [lia | reflexivity].
Qed.

Lemma pick_nil (k n : nat) : pick k n [] = [].
Proof. unfold pick. destruct (n <=? k)%nat, (k - n)%nat; reflexivity. Qed.

Lemma deliver_group (l : ReloadConfigLocals) (n : nat) (g : list string) :
  has_value l = false ->
  i l = Z.of_nat n - 1 ->
  Z.of_nat n < 2 ^ 63 ->
  (length g <= 1)%nat ->
  let l' := deliver (map LeafValue g ++ [Boundary]) l in
  has_value l' = false
  /\ i l' = Z.of_nat (S n) - 1
  /\ AddedGroup (reply l') = AddedGroup (reply l) ++ pick 0 n [g]
  /\ ChangedGroup (reply l') = ChangedGroup (reply l) ++ pick 1 n [g]
  /\ RemovedGroup (reply l') = RemovedGroup (reply l) ++ pick 2 n [g].
Proof.
  intros Hv Hi Hn Hg l'. subst l'.
  assert (Hstep : incr (i l) = Z.of_nat n).
  { rewrite incr_no_wrap; [lia |].
    pose proof min_int_neg. rewrite max_int_val. lia. }
  destruct g as [| value [| more g]]; [| | cbn in Hg; lia].
  - cbn [map app deliver fold_left fire]. unfold ReloadConfig_nonleaf.
    rewrite Hv. cbn [has_value i reply]. rewrite Hstep.
    repeat split; try lia;
      unfold pick; destruct n as [| [| [| n]]]; cbn;
      rewrite app_nil_r; reflexivity.
  - cbn [map app deliver fold_left fire].
    unfold ReloadConfig_nonleaf, ReloadConfig_leaf.
    cbn [has_value i reply]. rewrite Hstep.
    destruct n as [| [| [| n]]].
    + cbn. repeat split; rewrite ?app_nil_r; reflexivity.
    + cbn. repeat split; rewrite ?app_nil_r; reflexivity.
    + cbn. repeat split; rewrite ?app_nil_r; reflexivity.
    + assert (Hdef : forall (A : Type) (a b c d : A),
                 match Z.of_nat (S (S (S n))) with
                 | 0 => a | 1 => b | 2 => c | _ => d
                 end = d).
      { intros A a b c d.
        destruct (Z.of_nat (S (S (S n)))) as [| [q | q |] |] eqn:E;
          try destruct q; try reflexivity; lia. }
      rewrite Hdef.
      repeat split; try lia; unfold pick; cbn [Nat.leb nth Nat.sub app];
        rewrite ?app_nil_r; reflexivity.
Qed.

Lemma deliver_groups (groups : list (list string)) :
  forall (l : ReloadConfigLocals) (n : nat),
    has_value l = false ->
    i l = Z.of_nat n - 1 ->
    Z.of_nat (n + length groups) <= 2 ^ 63 ->
    Forall (fun g => (length g <= 1)%nat) groups ->
    let l' := deliver (end_pulses groups) l in
    AddedGroup (reply l') = AddedGroup (reply l) ++ pick 0 n groups
    /\ ChangedGroup (reply l') = ChangedGroup (reply l) ++ pick 1 n groups
    /\ RemovedGroup (reply l') = RemovedGroup (reply l) ++ pick 2 n groups.
Proof.
  induction groups as [| g groups IH]; intros l n Hv Hi Hn Hall l'; subst l'.
  - cbn [end_pulses map concat deliver fold_left].
    rewrite !pick_nil, !app_nil_r. auto.
  - inversion Hall as [| g' groups' Hg Hrest]; subst.
    unfold end_pulses. cbn [map concat]. fold (end_pulses groups).
    rewrite deliver_app. cbn [length] in Hn.
    destruct (deliver_group l n g Hv Hi ltac:(lia) Hg)
      as (Hv' & Hi' & Ha & Hc & Hr).
    destruct (IH _ (S n) Hv' Hi' ltac:(lia) Hrest) as (Ha' & Hc' & Hr').
    rewrite Ha', Hc', Hr', Ha, Hc, Hr, (pick_cons 0 n g groups),
      (pick_cons 1 n g groups), (pick_cons 2 n g groups), <- !app_assoc.
    auto.
Qed.

(** X18.  When a processor delivers the members of each group followed by
    one end signal, and no group has more than one member, the decode is
    positional: added, changed and removed are the first, second and third
    group, a missing group is empty, an empty group keeps its position, and
    groups after the third are ignored. *)
Theorem single_member_groups_decode_by_position (groups : list (list string)) :
  Forall (fun g => (length g <= 1)%nat) groups ->
  Z.of_nat (length groups) < 2 ^ 63 ->
  reply (deliver (end_pulses groups) ReloadConfig_init)
  = {| AddedGroup := nth 0 groups [];
       ChangedGroup := nth 1 groups [];
       RemovedGroup := nth 2 groups [] |}.
Proof.
  intros Hall Hlen.
  destruct (deliver_groups groups ReloadConfig_init 0 eq_refl eq_refl
              ltac:(cbn [Nat.add]; lia) Hall) as (Ha & Hc & Hr).
  destruct (reply (deliver (end_pulses groups) ReloadConfig_init))
    as [added changed removed].
  cbn [AddedGroup ChangedGroup RemovedGroup reply ReloadConfig_init app] in *.
  unfold pick in *. cbn [Nat.leb Nat.sub] in *. subst. reflexivity.
Qed.

Lemma single_member_groups_decode_by_position_witness :
  reply (deliver (end_pulses [["a"]; []; ["c"]; ["d"]]) ReloadConfig_init)
  = {| AddedGroup := ["a"]; ChangedGroup := []; RemovedGroup := ["c"] |}.
Proof.
  apply (single_member_groups_decode_by_position [["a"]; []; ["c"]; ["d"]]).
  - repeat constructor.
  - vm_compute. reflexivity.
Defined.

End ReloadMore.
